(** * ps2kbd: the PS/2 scancode decoder of [ps2kbd.c]

    A shallow embedding of the decoding half of [ps2kbd.c]: the two
    translation tables [lower] and [upper], the three static flags
    [release], [shift] and [ascii], the polling routine [kbd_ready] and the
    blocking read [kbd_getc].  [kbd_init] only programs the PIO block and
    is not modelled; the PIO receive FIFO it sets up appears here as the
    list of 32-bit words still waiting to be read. *)

From Stdlib Require Import ZArith Ascii Lia.
From stdpp Require Import base list.

Local Open Scope Z_scope.

(** ** Outcomes

    Every C routine below either returns normally or reads a table past
    its end, which C leaves undefined.  [kbd_getc] is a loop, modelled with
    fuel, and may also use its fuel up while still spinning. *)

Inductive result (A : Type) : Type :=
  | Ret (a : A)                (* normal return *)
  | OutOfBounds (idx : Z)      (* table read at [idx], past the last entry *)
  | Spin.                      (* the busy-wait loop is still running *)

Arguments Ret {A} a.
Arguments OutOfBounds {A} idx.
Arguments Spin {A}.

#[global] Instance result_ret : MRet result := fun A a => Ret a.

#[global] Instance result_bind : MBind result := fun A B f m =>
  match m with
  | Ret a => f a
  | OutOfBounds i => OutOfBounds i
  | Spin => Spin
  end.

(** ** The translation tables *)

Module Tables.

(** A character constant of the C source, as the [uint8_t] it initialises. *)
Definition chr (c : Ascii.ascii) : Z := Z.of_N (N_of_ascii c).

Definition BS : Z := 0x8.
Definition TAB : Z := 0x9.
Definition LF : Z := 0xA.
Definition ESC : Z := 0x1B.

(** The double quote of row 5 of [upper], written by its code. *)
Definition dquote : Z := 34.

Arguments chr c%_char.

(** ASCII codes by keyboard-code index, 16 elements per row. *)
Definition lower : list Z :=
  [ 0;  0;   0;   0;   0;   0;   0;   0;  0;  0;   0;   0;   0;   TAB; chr "`"; 0;
    0;  0;   0;   0;   0;   chr "q"; chr "1"; 0;  0;  0;   chr "z"; chr "s"; chr "a"; chr "w"; chr "2"; 0;
    0;  chr "c"; chr "x"; chr "d"; chr "e"; chr "4"; chr "3"; 0;  0;  chr " "; chr "v"; chr "f"; chr "t"; chr "r"; chr "5"; 0;
    0;  chr "n"; chr "b"; chr "h"; chr "g"; chr "y"; chr "6"; 0;  0;  0;   chr "m"; chr "j"; chr "u"; chr "7"; chr "8"; 0;
    0;  chr ","; chr "k"; chr "i"; chr "o"; chr "0"; chr "9"; 0;  0;  chr "."; chr "/"; chr "l"; chr ";"; chr "p"; chr "-"; 0;
    0;  0;   chr "'"; 0;   chr "["; chr "="; 0;   0;  0;  0;   LF;  chr "]"; 0;   chr "\"; 0;   0;
    0;  0;   0;   0;   0;   0;   BS;  0;  0;  0;   0;   0;   0;   0;   0;   0;
    0;  0;   0;   0;   0;   0;   ESC; 0;  0;  0;   0;   0;   0;   0;   0;   0 ].

(** Upper-case ASCII codes by keyboard-code index. *)
Definition upper : list Z :=
  [ 0;  0;   0;   0;   0;   0;   0;   0;  0;  0;   0;   0;   0;   TAB; chr "~"; 0;
    0;  0;   0;   0;   0;   chr "Q"; chr "!"; 0;  0;  0;   chr "Z"; chr "S"; chr "A"; chr "W"; chr "@"; 0;
    0;  chr "C"; chr "X"; chr "D"; chr "E"; chr "$"; chr "#"; 0;  0;  chr " "; chr "V"; chr "F"; chr "T"; chr "R"; chr "%"; 0;
    0;  chr "N"; chr "B"; chr "H"; chr "G"; chr "Y"; chr "^"; 0;  0;  0;   chr "M"; chr "J"; chr "U"; chr "&"; chr "*"; 0;
    0;  chr "<"; chr "K"; chr "I"; chr "O"; chr ")"; chr "("; 0;  0;  chr ">"; chr "?"; chr "L"; chr ":"; chr "P"; chr "_"; 0;
    0;  0;   dquote; 0; chr "{"; chr "+"; 0;   0;  0;  0;   LF;  chr "}"; 0;   chr "|"; 0;   0;
    0;  0;   0;   0;   0;   0;   BS;  0;  0;  0;   0;   0;   0;   0;   0;   0;
    0;  0;   0;   0;   0;   0;   ESC; 0;  0;  0;   0;   0;   0;   0;   0;   0 ].

End Tables.

Export Tables.

(** ** Decoder state

    The three file-scope flags of the C source, together with the contents
    of the PIO receive FIFO that [kbd_ready] drains.  The flags are
    [uint8_t] and are tested for being non-zero, as in C. *)

Record kbd : Type := Kbd {
  rxf : list Z;      (* words waiting in the receive FIFO, oldest first *)
  release : Z;       (* flag indicates the release of a key *)
  shift : Z;         (* shift indication *)
  ascii : Z          (* translated to ASCII *)
}.

Definition set_rxf (q : list Z) (k : kbd) : kbd :=
  Kbd q (release k) (shift k) (ascii k).
Definition set_release (v : Z) (k : kbd) : kbd :=
  Kbd (rxf k) v (shift k) (ascii k).
Definition set_shift (v : Z) (k : kbd) : kbd :=
  Kbd (rxf k) (release k) v (ascii k).
Definition set_ascii (v : Z) (k : kbd) : kbd :=
  Kbd (rxf k) (release k) (shift k) v.

(** Static storage starts zeroed; the FIFO holds whatever has arrived. *)
Definition kbd_start (q : list Z) : kbd := Kbd q 0 0 0.

(** A C truth test on an integer. *)
Definition nonzero (z : Z) : bool := negb (z =? 0).

(** The scan code is read as one byte at offset 3 of the 32-bit FIFO
    register, which on the little-endian target is bits 31..24 of the
    word: the 8 bits the state machine shifted in from the left. *)
Definition rx_byte3 (w : Z) : Z := Z.land (Z.shiftr w 24) 0xFF.

(** [(shift ? upper : lower)]: the table the switch reads. *)
Definition table_for (sh : Z) : list Z := if nonzero sh then upper else lower.

(** [t[code]] for a table of [length t] entries.  C defines the read only
    below the length. *)
Definition table_get (t : list Z) (code : Z) : result Z :=
  match t !! Z.to_nat code with
  | Some v => Ret v
  | None => OutOfBounds code
  end.

(** The [switch (code)] statement of [kbd_ready]. *)
Definition scan_switch (code : Z) (k : kbd) : result kbd :=
  if code =? 0xF0 then
    (* key-release code 0xF0 detected *)
    mret (set_release 1 k)
  else if (code =? 0x12) || (code =? 0x59) then
    (* left-side or right-side SHIFT key detected *)
    if nonzero (release k)
    then mret (set_release 0 (set_shift 0 k))
    else mret (set_shift 1 k)
  else
    (* no case applies *)
    k1 ← (if negb (nonzero (release k))
          then v ← table_get (table_for (shift k)) code;
               mret (set_ascii v k)
          else mret k);
    mret (set_release 0 k1).

(** [kbd_ready]: the value returned and the state left behind. *)
Definition kbd_ready (k : kbd) : result (Z * kbd) :=
  if nonzero (ascii k) then
    mret (ascii k, k)                 (* we might already have a character *)
  else
    match rxf k with
    | [] => mret (0, k)               (* no new codes in the fifo *)
    | w :: q =>
        (* pull a scan code from the PIO SM fifo *)
        k' ← scan_switch (rx_byte3 w) (set_rxf q k);
        mret (ascii k', k')
    end.

(** The [int] result of [kbd_ready] assigned to [char c]: plain [char]
    is an unsigned byte on the ARM target. *)
Definition to_char (r : Z) : Z := r mod 256.

(** [kbd_getc]: at most [fuel] turns of the [while] loop. *)
Fixpoint kbd_getc (fuel : nat) (k : kbd) : result (Z * kbd) :=
  match fuel with
  | O => Spin
  | S fuel' =>
      '(r, k') ← kbd_ready k;
      let c := to_char r in
      if nonzero c
      then mret (c, set_ascii 0 k')
      else kbd_getc fuel' k'          (* tight_loop_contents() *)
  end.

(** [n] successive calls of [kbd_ready]: the values returned, in call
    order, and the final state. *)
Fixpoint polls (n : nat) (k : kbd) : result (list Z * kbd) :=
  match n with
  | O => mret ([], k)
  | S n' =>
      '(r, k1) ← kbd_ready k;
      '(rs, k2) ← polls n' k1;
      mret (r :: rs, k2)
  end.

(** The FIFO word the sampler pushes for a scan code under the shift
    configuration of [kbd_init] (shift right, autopush at 8 bits): the
    eight bits land in the top byte of an otherwise empty word. *)
Definition rx_word (code : Z) : Z := Z.shiftl code 24.

(** ** Vocabulary of the statements *)

(** Every entry of a table is a 7-bit ASCII code. *)
Definition is_ascii7 (v : Z) : bool := (0 <=? v) && (v <? 128).

(** A scan code that falls to the [default:] branch of the switch. *)
Definition ordinary (code : Z) : Prop :=
  code <> 0xF0 /\ code <> 0x12 /\ code <> 0x59.

(** One call of [kbd_ready] on [k] leaves [q] queued, both flags as they
    were with [release] clear, and makes the entry of table [t] at the scan
    code of word [w] the pending character, which it returns. *)
Definition stores_entry (t : list Z) (w : Z) (q : list Z) (k : kbd) : Prop :=
  exists v, t !! Z.to_nat (rx_byte3 w) = Some v /\
            kbd_ready k = Ret (v, Kbd q 0 (shift k) v).

(** What the decoder sees between two observations: a word arriving from
    the sampler, a call of [kbd_ready], or the [ascii = 0] with which
    [kbd_getc] hands a character over. *)
Inductive event : Type :=
  | Arrive (w : Z)
  | Poll
  | Take.

(** The scan code most recently pulled from the FIFO, after a call of
    [kbd_ready] in state [k], given the one before the call. *)
Definition pulled (k : kbd) (last : option Z) : option Z :=
  if nonzero (ascii k) then last
  else match rxf k with
       | w :: _ => Some (rx_byte3 w)
       | [] => last
       end.

(** A history of events from state [k], carrying along the last scan code
    pulled. *)
Fixpoint run (es : list event) (k : kbd) (last : option Z) : result (kbd * option Z) :=
  match es with
  | [] => mret (k, last)
  | Arrive w :: es' => run es' (set_rxf (rxf k ++ [w]) k) last
  | Poll :: es' => '(_, k') ← kbd_ready k; run es' k' (pulled k last)
  | Take :: es' => run es' (set_ascii 0 k) last
  end.

(** ** Vocabulary of the further properties *)

(** The shape of the flags in every state the decoder gets into: the two
    latches are 0 or 1, the pending character is a table entry, and a
    character is pending only with [release] clear. *)
Definition tidy (k : kbd) : Prop :=
  (release k = 0 \/ release k = 1) /\ (shift k = 0 \/ shift k = 1) /\
  ascii k ∈ lower ++ upper /\ (ascii k <> 0 -> release k = 0).

(** Scan codes the switch handles without leaving the tables. *)
Definition in_domain (code : Z) : bool := (code <? 128) || (code =? 0xF0).

(** The value a call returns, without the state it leaves. *)
Definition returned {A : Type} (m : result (A * kbd)) : result A :=
  '(a, _) ← m; mret a.

(** Two states that differ at most in the low three bytes of the words
    queued. *)
Definition same_codes (k1 k2 : kbd) : Prop :=
  rx_byte3 <$> rxf k1 = rx_byte3 <$> rxf k2 /\
  release k1 = release k2 /\ shift k1 = shift k2 /\ ascii k1 = ascii k2.

(** The printable ASCII characters and the four control characters. *)
Definition typeable (c : Z) : bool :=
  ((32 <=? c) && (c <=? 126)) || (c =? BS) || (c =? TAB) || (c =? LF) || (c =? ESC).

(** A key that types [c]: the first scan code with entry [c] in [lower],
    with shift off, or else in [upper], with shift on. *)
Definition key_of (c : Z) : option (Z * Z) :=
  match list_find (fun v => v = c) lower with
  | Some (i, _) => Some (Z.of_nat i, 0)
  | None =>
      match list_find (fun v => v = c) upper with
      | Some (i, _) => Some (Z.of_nat i, 1)
      | None => None
      end
  end.

(** ** The routines as the processor runs them

    The checked routines above stop at a read past a table.  The compiled
    code has no such stop: the load at [table + code] fetches whatever
    byte lies behind the table and the routine carries on with it.  The
    same routines again, with that byte supplied by [behind]; nothing else
    differs. *)

Module Machine.
Section Behind.

(** [behind t code]: the byte in memory at offset [code] from the start
    of table [t], for [code] past its last entry. *)
Variable behind : list Z -> Z -> Z.

(** [t[code]], a [uint8_t] load. *)
Definition table_get (t : list Z) (code : Z) : Z :=
  match t !! Z.to_nat code with
  | Some v => v
  | None => behind t code mod 256
  end.

(** The [switch (code)] statement of [kbd_ready]. *)
Definition scan_switch (code : Z) (k : kbd) : kbd :=
  if code =? 0xF0 then
    set_release 1 k
  else if (code =? 0x12) || (code =? 0x59) then
    if nonzero (release k)
    then set_release 0 (set_shift 0 k)
    else set_shift 1 k
  else
    let k1 := if negb (nonzero (release k))
              then set_ascii (table_get (table_for (shift k)) code) k
              else k in
    set_release 0 k1.

Definition kbd_ready (k : kbd) : Z * kbd :=
  if nonzero (ascii k) then
    (ascii k, k)
  else
    match rxf k with
    | [] => (0, k)
    | w :: q =>
        let k' := scan_switch (rx_byte3 w) (set_rxf q k) in
        (ascii k', k')
    end.

(** [kbd_getc], at most [fuel] turns of the loop; [None] while it is
    still looping. *)
Fixpoint kbd_getc (fuel : nat) (k : kbd) : option (Z * kbd) :=
  match fuel with
  | O => None
  | S fuel' =>
      let '(r, k') := kbd_ready k in
      let c := to_char r in
      if nonzero c then Some (c, set_ascii 0 k') else kbd_getc fuel' k'
  end.

(** A history of events, as [run] below, on these routines. *)
Fixpoint run (es : list event) (k : kbd) (last : option Z) : kbd * option Z :=
  match es with
  | [] => (k, last)
  | Arrive w :: es' => run es' (set_rxf (rxf k ++ [w]) k) last
  | Poll :: es' => run es' (kbd_ready k).2 (pulled k last)
  | Take :: es' => run es' (set_ascii 0 k) last
  end.

End Behind.
End Machine.

(** An event that brings no scan code from outside the tables. *)
Definition in_domain_event (e : event) : bool :=
  match e with
  | Arrive w => in_domain (rx_byte3 w)
  | Poll | Take => true
  end.

(** * Properties *)

(** Field updates written out as records. *)
Ltac flat := unfold set_release, set_shift, set_rxf, set_ascii; simpl.

(** ** Bytes and FIFO words *)

Lemma rx_byte3_range (w : Z) : 0 <= rx_byte3 w < 256.
Proof.
  unfold rx_byte3. change 0xFF with (Z.ones 8).
  rewrite Z.land_ones by lia. apply Z.mod_pos_bound. lia.
Qed.

Lemma rx_byte3_word (code : Z) : 0 <= code < 256 -> rx_byte3 (rx_word code) = code.
Proof.
  intros Hc. unfold rx_byte3, rx_word.
  rewrite Z.shiftr_shiftl_l by lia. rewrite Z.sub_diag, Z.shiftl_0_r.
  change 0xFF with (Z.ones 8). rewrite Z.land_ones by lia.
  apply Z.mod_small. lia.
Qed.

Lemma nonzero_false (z : Z) : nonzero z = false <-> z = 0.
Proof. unfold nonzero. destruct (Z.eqb_spec z 0); simpl; split; congruence. Qed.

Lemma nonzero_true (z : Z) : nonzero z = true <-> z <> 0.
Proof. unfold nonzero. destruct (Z.eqb_spec z 0); simpl; split; congruence. Qed.

Lemma to_char_byte (v : Z) : 0 <= v < 256 -> to_char v = v.
Proof. intros Hv. unfold to_char. apply Z.mod_small. lia. Qed.

(** ** The tables *)

Lemma lower_length : length lower = 128%nat.
Proof. reflexivity. Qed.

Lemma upper_length : length upper = 128%nat.
Proof. reflexivity. Qed.

Lemma tables_ascii7 (t : list Z) (i : nat) (v : Z) :
  t = lower \/ t = upper -> t !! i = Some v -> 0 <= v < 128.
Proof.
  intros Ht Hv.
  assert (Hall : forallb is_ascii7 t = true) by (destruct Ht; subst t; reflexivity).
  rewrite forallb_forall in Hall.
  assert (Hin : In v t) by (apply list_elem_of_In, list_elem_of_lookup; eauto).
  apply Hall in Hin. unfold is_ascii7 in Hin. lia.
Qed.

Lemma table_for_cases (sh : Z) : table_for sh = lower \/ table_for sh = upper.
Proof. unfold table_for. destruct (nonzero sh); auto. Qed.

Lemma table_for_length (sh : Z) : length (table_for sh) = 128%nat.
Proof. unfold table_for. destruct (nonzero sh); reflexivity. Qed.

Lemma table_get_inside (sh code : Z) :
  0 <= code < 128 ->
  exists v, table_for sh !! Z.to_nat code = Some v /\ table_get (table_for sh) code = Ret v.
Proof.
  intros Hc.
  destruct (lookup_lt_is_Some_2 (table_for sh) (Z.to_nat code)) as [v Hv].
  - rewrite table_for_length. lia.
  - exists v. split; [exact Hv|]. unfold table_get. now rewrite Hv.
Qed.

Lemma table_get_outside (sh code : Z) :
  128 <= code -> table_get (table_for sh) code = OutOfBounds code.
Proof.
  intros Hc. unfold table_get.
  rewrite (lookup_ge_None_2 (table_for sh) (Z.to_nat code)); [reflexivity|].
  rewrite table_for_length. lia.
Qed.

(** ** One scan code through the switch *)

Lemma scan_switch_prefix (k : kbd) :
  scan_switch 0xF0 k = Ret (set_release 1 k).
Proof. reflexivity. Qed.

Lemma scan_switch_shift (code : Z) (k : kbd) :
  code = 0x12 \/ code = 0x59 ->
  scan_switch code k =
    Ret (if nonzero (release k) then set_release 0 (set_shift 0 k) else set_shift 1 k).
Proof.
  intros [-> | ->]; unfold scan_switch; simpl; destruct (nonzero (release k)); reflexivity.
Qed.

Lemma scan_switch_other (code : Z) (k : kbd) :
  code <> 0xF0 -> code <> 0x12 -> code <> 0x59 ->
  scan_switch code k =
    if nonzero (release k) then Ret (set_release 0 k)
    else v ← table_get (table_for (shift k)) code; Ret (set_release 0 (set_ascii v k)).
Proof.
  intros H1 H2 H3. unfold scan_switch.
  destruct (Z.eqb_spec code 0xF0) as [|_]; [contradiction|].
  destruct (Z.eqb_spec code 0x12) as [|_]; [contradiction|].
  destruct (Z.eqb_spec code 0x59) as [|_]; [contradiction|].
  simpl.
  destruct (nonzero (release k)); simpl; [reflexivity|].
  destruct (table_get (table_for (shift k)) code); reflexivity.
Qed.

(** ** [kbd_ready] by cases *)

Lemma kbd_ready_pending (k : kbd) : ascii k <> 0 -> kbd_ready k = Ret (ascii k, k).
Proof. intros H. unfold kbd_ready. apply nonzero_true in H. now rewrite H. Qed.

Lemma kbd_ready_empty (k : kbd) :
  ascii k = 0 -> rxf k = [] -> kbd_ready k = Ret (0, k).
Proof. intros H Hq. unfold kbd_ready. apply nonzero_false in H. now rewrite H, Hq. Qed.

Lemma kbd_ready_pop (k : kbd) (w : Z) (q : list Z) :
  ascii k = 0 -> rxf k = w :: q ->
  kbd_ready k = k' ← scan_switch (rx_byte3 w) (set_rxf q k); Ret (ascii k', k').
Proof. intros H Hq. unfold kbd_ready. apply nonzero_false in H. now rewrite H, Hq. Qed.

(** One scan code pulled from the FIFO, by the branch of the switch it takes. *)

Lemma kbd_ready_prefix (k : kbd) (w : Z) (q : list Z) :
  ascii k = 0 -> rxf k = w :: q -> rx_byte3 w = 0xF0 ->
  kbd_ready k = Ret (0, Kbd q 1 (shift k) 0).
Proof.
  intros Ha Hq Hw. rewrite (kbd_ready_pop k w q Ha Hq), Hw, scan_switch_prefix.
  flat. now rewrite Ha.
Qed.

Lemma kbd_ready_shift (k : kbd) (w : Z) (q : list Z) :
  ascii k = 0 -> rxf k = w :: q -> rx_byte3 w = 0x12 \/ rx_byte3 w = 0x59 ->
  kbd_ready k = Ret (0, Kbd q 0 (if nonzero (release k) then 0 else 1) 0).
Proof.
  intros Ha Hq Hw. rewrite (kbd_ready_pop k w q Ha Hq), (scan_switch_shift _ _ Hw).
  flat. destruct (nonzero (release k)) eqn:Hr; simpl; rewrite Ha; [reflexivity|].
  apply nonzero_false in Hr. now rewrite Hr.
Qed.

Lemma kbd_ready_released (k : kbd) (w : Z) (q : list Z) :
  ascii k = 0 -> rxf k = w :: q -> ordinary (rx_byte3 w) -> release k <> 0 ->
  kbd_ready k = Ret (0, Kbd q 0 (shift k) 0).
Proof.
  intros Ha Hq (H1 & H2 & H3) Hr.
  rewrite (kbd_ready_pop k w q Ha Hq), (scan_switch_other _ _ H1 H2 H3).
  flat. apply nonzero_true in Hr. rewrite Hr. simpl. now rewrite Ha.
Qed.

Lemma kbd_ready_lookup (k : kbd) (w : Z) (q : list Z) :
  ascii k = 0 -> rxf k = w :: q -> ordinary (rx_byte3 w) -> release k = 0 ->
  kbd_ready k =
    v ← table_get (table_for (shift k)) (rx_byte3 w); Ret (v, Kbd q 0 (shift k) v).
Proof.
  intros Ha Hq (H1 & H2 & H3) Hr.
  rewrite (kbd_ready_pop k w q Ha Hq), (scan_switch_other _ _ H1 H2 H3).
  flat. apply nonzero_false in Hr. rewrite Hr.
  destruct (table_get (table_for (shift k)) (rx_byte3 w)); reflexivity.
Qed.

(** ** Repeated polling and the blocking read *)

Lemma polls_step (n : nat) (k k1 : kbd) (r : Z) :
  kbd_ready k = Ret (r, k1) ->
  polls (S n) k = '(rs, k2) ← polls n k1; Ret (r :: rs, k2).
Proof. intros H. simpl. now rewrite H. Qed.

Lemma polls_stall (n : nat) (k : kbd) :
  ascii k <> 0 -> polls n k = Ret (replicate n (ascii k), k).
Proof.
  intros Ha. induction n as [|n IH]; [reflexivity|].
  rewrite (polls_step n k k (ascii k)) by now apply kbd_ready_pending.
  now rewrite IH.
Qed.

Lemma polls_idle (n : nat) (k : kbd) :
  ascii k = 0 -> rxf k = [] -> polls n k = Ret (replicate n 0, k).
Proof.
  intros Ha Hq. induction n as [|n IH]; [reflexivity|].
  rewrite (polls_step n k k 0) by now apply kbd_ready_empty.
  now rewrite IH.
Qed.

Lemma kbd_getc_char (fuel : nat) (k k1 : kbd) (r : Z) :
  kbd_ready k = Ret (r, k1) -> 0 < r < 256 ->
  kbd_getc (S fuel) k = Ret (r, set_ascii 0 k1).
Proof.
  intros H Hr. simpl. rewrite H. simpl.
  rewrite to_char_byte by lia.
  assert (Hnz : nonzero r = true) by (apply nonzero_true; lia).
  now rewrite Hnz.
Qed.

Lemma kbd_getc_again (fuel : nat) (k k1 : kbd) :
  kbd_ready k = Ret (0, k1) -> kbd_getc (S fuel) k = kbd_getc fuel k1.
Proof. intros H. simpl. now rewrite H. Qed.

Lemma kbd_getc_idle (fuel : nat) (k : kbd) :
  ascii k = 0 -> rxf k = [] -> kbd_getc fuel k = Spin.
Proof.
  intros Ha Hq. induction fuel as [|fuel IH]; [reflexivity|].
  now rewrite (kbd_getc_again fuel k k) by now apply kbd_ready_empty.
Qed.

Lemma kbd_getc_pending (fuel : nat) (k : kbd) :
  0 < ascii k < 256 -> kbd_getc (S fuel) k = Ret (ascii k, set_ascii 0 k).
Proof.
  intros Ha. apply kbd_getc_char; [|exact Ha].
  apply kbd_ready_pending. lia.
Qed.

Lemma kbd_getc_returns (fuel : nat) (k k' : kbd) (c : Z) :
  kbd_getc fuel k = Ret (c, k') -> c <> 0 /\ ascii k' = 0.
Proof.
  revert k. induction fuel as [|fuel IH]; intros k H; [discriminate|].
  simpl in H. destruct (kbd_ready k) as [[r k1]| |]; simpl in H; try discriminate.
  destruct (nonzero (to_char r)) eqn:Hnz.
  - injection H as <- <-. split; [now apply nonzero_true|reflexivity].
  - now apply IH in H.
Qed.

(** More fuel never changes an answer already given. *)
Lemma kbd_getc_fuel (fuel extra : nat) (k k' : kbd) (c : Z) :
  kbd_getc fuel k = Ret (c, k') -> kbd_getc (fuel + extra) k = Ret (c, k').
Proof.
  revert k. induction fuel as [|fuel IH]; intros k H; [discriminate|].
  simpl in *. destruct (kbd_ready k) as [[r k1]| |]; simpl in *; try discriminate.
  destruct (nonzero (to_char r)); [exact H|now apply IH].
Qed.

(** The blocking read is a run of polls closed by [ascii = 0]. *)
Lemma kbd_getc_polls (fuel : nat) (k k' : kbd) (c : Z) :
  kbd_getc fuel k = Ret (c, k') ->
  exists n rs k1, (n <= fuel)%nat /\ polls n k = Ret (rs, k1) /\ k' = set_ascii 0 k1.
Proof.
  revert k. induction fuel as [|fuel IH]; intros k H; [discriminate|].
  simpl in H. destruct (kbd_ready k) as [[r k1]| |] eqn:Hk; simpl in H; try discriminate.
  destruct (nonzero (to_char r)).
  - injection H as <- <-. exists 1%nat, [r], k1. split; [lia|].
    split; [|reflexivity]. now rewrite (polls_step 0 k k1 r Hk).
  - destruct (IH _ H) as (n & rs & k2 & Hn & Hp & ->).
    exists (S n), (r :: rs), k2. split; [lia|]. split; [|reflexivity].
    rewrite (polls_step n k k1 r Hk), Hp. reflexivity.
Qed.

(** ** The claims *)

(** C1 (fails on the code).  The lookup step is not kept inside the
    tables.  Both tables have 128 entries, the scan code is a full byte, and
    the [default:] branch reads [table[code]] without a check: the scan
    code 0x83, the make code of the F7 key, arrives at the lookup with
    [release] clear and is used as index 131, past the last entry, whatever
    the shift state and whatever else is queued. *)
Theorem lookup_past_table_end :
  length lower = 128%nat /\ length upper = 128%nat /\
  rx_byte3 (rx_word 0x83) = 0x83 /\ ordinary 0x83 /\
  lower !! Z.to_nat 0x83 = None /\ upper !! Z.to_nat 0x83 = None /\
  forall (q : list Z) (sh : Z),
    kbd_ready (Kbd (rx_word 0x83 :: q) 0 sh 0) = OutOfBounds 0x83.
Proof.
  repeat split; try reflexivity; try discriminate.
  intros q sh.
  rewrite (kbd_ready_lookup _ (rx_word 0x83) q); try reflexivity.
  - simpl shift. change (rx_byte3 (rx_word 0x83)) with 0x83.
    now rewrite table_get_outside.
  - repeat split; discriminate.
Qed.

(** Where the lookup goes wrong in general: exactly on the ordinary scan
    codes from 128 up that arrive with [release] clear. *)
Lemma kbd_ready_faults (k : kbd) (w : Z) (q : list Z) :
  ascii k = 0 -> rxf k = w :: q -> ordinary (rx_byte3 w) -> release k = 0 ->
  128 <= rx_byte3 w -> kbd_ready k = OutOfBounds (rx_byte3 w).
Proof.
  intros Ha Hq Ho Hr Hc. rewrite (kbd_ready_lookup k w q Ha Hq Ho Hr).
  now rewrite table_get_outside.
Qed.

Lemma kbd_ready_in_bounds (k : kbd) (w : Z) (q : list Z) :
  rxf k = w :: q -> rx_byte3 w < 128 \/ release k <> 0 \/ ~ ordinary (rx_byte3 w)
  \/ ascii k <> 0 ->
  exists r k', kbd_ready k = Ret (r, k').
Proof.
  intros Hq Hc.
  destruct (Z.eq_dec (ascii k) 0) as [Ha|Ha];
    [|rewrite kbd_ready_pending by exact Ha; eauto].
  destruct (Z.eq_dec (rx_byte3 w) 0xF0) as [H1|H1];
    [rewrite (kbd_ready_prefix k w q) by assumption; eauto|].
  destruct (Z.eq_dec (rx_byte3 w) 0x12) as [H2|H2];
    [rewrite (kbd_ready_shift k w q) by auto; eauto|].
  destruct (Z.eq_dec (rx_byte3 w) 0x59) as [H3|H3];
    [rewrite (kbd_ready_shift k w q) by auto; eauto|].
  assert (Ho : ordinary (rx_byte3 w)) by (repeat split; assumption).
  destruct (Z.eq_dec (release k) 0) as [Hr|Hr];
    [|rewrite (kbd_ready_released k w q) by assumption; eauto].
  rewrite (kbd_ready_lookup k w q Ha Hq Ho Hr).
  destruct Hc as [Hc|[Hc|[Hc|Hc]]]; try contradiction.
  destruct (table_get_inside (shift k) (rx_byte3 w)) as (v & _ & ->);
    [pose proof (rx_byte3_range w); lia|].
  simpl. eauto.
Qed.

(** C2, as stated, fails for a scan code outside the tables: 0x83 is none
    of 0xF0, 0x12, 0x59, it arrives with nothing pending and both flags
    clear, and no entry of [lower] is stored: [lower] has no entry 0x83 and
    the call does not return. *)
Lemma ordinary_code_without_entry :
  ordinary (rx_byte3 (rx_word 0x83)) /\
  kbd_start [rx_word 0x83] = Kbd [rx_word 0x83] 0 0 0 /\
  lower !! Z.to_nat (rx_byte3 (rx_word 0x83)) = None /\
  kbd_ready (kbd_start [rx_word 0x83]) = OutOfBounds 0x83 /\
  ~ stores_entry lower (rx_word 0x83) [] (kbd_start [rx_word 0x83]).
Proof.
  repeat split; try discriminate.
  intros (v & Hv & _). discriminate Hv.
Qed.

(** C2 (amended).  For every scan code below 128 other than 0x12 and
    0x59, pulled from the FIFO with no character pending and [release]
    clear: with [shift] clear the call stores [lower[code]] as the pending
    character and returns it, with [shift] set it stores [upper[code]];
    the word is consumed and both flags keep their values. *)
Theorem ordinary_code_stores_table_entry (k : kbd) (w : Z) (q : list Z) :
  rxf k = w :: q -> ascii k = 0 -> release k = 0 ->
  rx_byte3 w < 128 -> rx_byte3 w <> 0x12 -> rx_byte3 w <> 0x59 ->
  (shift k = 0 -> stores_entry lower w q k) /\
  (shift k <> 0 -> stores_entry upper w q k).
Proof.
  intros Hq Ha Hr Hc H2 H3.
  assert (Ho : ordinary (rx_byte3 w)) by (repeat split; [lia|assumption..]).
  pose proof (rx_byte3_range w) as Hb.
  destruct (table_get_inside (shift k) (rx_byte3 w)) as (v & Hv & Hg); [lia|].
  pose proof (kbd_ready_lookup k w q Ha Hq Ho Hr) as Hk.
  rewrite Hg in Hk. simpl in Hk.
  unfold table_for in Hv.
  split; intros Hs.
  - apply nonzero_false in Hs. rewrite Hs in Hv. exists v. auto.
  - apply nonzero_true in Hs. rewrite Hs in Hv. exists v. auto.
Qed.

Lemma ordinary_code_stores_table_entry_witness :
  stores_entry lower (rx_word 0x1C) [] (kbd_start [rx_word 0x1C]) /\
  stores_entry upper (rx_word 0x1C) [] (Kbd [rx_word 0x1C] 0 1 0).
Proof.
  split.
  - apply (ordinary_code_stores_table_entry (kbd_start [rx_word 0x1C]) (rx_word 0x1C) []);
      solve [reflexivity | discriminate].
  - apply (ordinary_code_stores_table_entry (Kbd [rx_word 0x1C] 0 1 0) (rx_word 0x1C) []);
      solve [reflexivity | discriminate].
Defined.

(** C3, as stated, fails when the scan code after a release prefix is
    another release prefix: after the first 0xF0 [release] is set, and
    after the second it is still set. *)
Lemma second_prefix_keeps_release :
  polls 1 (kbd_start [rx_word 0xF0; rx_word 0xF0])
    = Ret ([0], Kbd [rx_word 0xF0] 1 0 0) /\
  release (Kbd [rx_word 0xF0] 1 0 0) <> 0 /\
  kbd_ready (Kbd [rx_word 0xF0] 1 0 0) = Ret (0, Kbd [] 1 0 0) /\
  release (Kbd [] 1 0 0) <> 0.
Proof. repeat split; discriminate. Qed.

(** C3 (amended).  In every state in which [release] is set and no
    character is pending, the call that pulls the next scan code returns no
    character, and leaves [release] clear when that scan code is anything
    but 0xF0 -- a shift code, an ordinary code, or a byte outside the
    tables -- and set when it is 0xF0 again. *)
Theorem release_cleared_unless_prefix (k : kbd) (w : Z) (q : list Z) :
  rxf k = w :: q -> ascii k = 0 -> release k <> 0 ->
  exists k', kbd_ready k = Ret (0, k') /\ rxf k' = q /\ ascii k' = 0 /\
    (rx_byte3 w <> 0xF0 -> release k' = 0) /\
    (rx_byte3 w = 0xF0 -> release k' = 1).
Proof.
  intros Hq Ha Hr.
  destruct (Z.eq_dec (rx_byte3 w) 0xF0) as [H1|H1].
  { eexists. split; [now apply (kbd_ready_prefix k w q)|]. simpl. tauto. }
  destruct (Z.eq_dec (rx_byte3 w) 0x12) as [H2|H2].
  { eexists. split; [apply (kbd_ready_shift k w q); auto|]. simpl. tauto. }
  destruct (Z.eq_dec (rx_byte3 w) 0x59) as [H3|H3].
  { eexists. split; [apply (kbd_ready_shift k w q); auto|]. simpl. tauto. }
  eexists. split; [apply (kbd_ready_released k w q); try assumption|].
  - repeat split; assumption.
  - simpl. tauto.
Qed.

Lemma release_cleared_unless_prefix_witness :
  exists k', kbd_ready (Kbd [rx_word 0x1C] 1 0 0) = Ret (0, k') /\ rxf k' = [] /\
    ascii k' = 0 /\
    (rx_byte3 (rx_word 0x1C) <> 0xF0 -> release k' = 0) /\
    (rx_byte3 (rx_word 0x1C) = 0xF0 -> release k' = 1).
Proof.
  apply (release_cleared_unless_prefix (Kbd [rx_word 0x1C] 1 0 0) (rx_word 0x1C) []);
    solve [reflexivity | discriminate].
Defined.

(** C4.  While a character is pending, the decoder stalls: every call of
    [kbd_ready] returns that character and leaves the FIFO and the three
    flags as they were, however often it is called, and the next
    [kbd_getc] returns the same character and clears it -- touching
    neither the FIFO nor the two flags. *)
Theorem pending_char_stalls_decoder (k : kbd) :
  0 < ascii k < 256 ->
  kbd_ready k = Ret (ascii k, k) /\
  (forall n, polls n k = Ret (replicate n (ascii k), k)) /\
  (forall n fuel rs k', polls n k = Ret (rs, k') ->
     kbd_getc (S fuel) k' = Ret (ascii k, Kbd (rxf k) (release k) (shift k) 0)).
Proof.
  intros Ha. split; [apply kbd_ready_pending; lia|].
  split; [intros n; apply polls_stall; lia|].
  intros n fuel rs k' Hp. rewrite polls_stall in Hp by lia.
  injection Hp as _ <-. now apply kbd_getc_pending.
Qed.

Lemma pending_char_stalls_decoder_witness :
  kbd_ready (Kbd [rx_word 0x32] 0 0 97) = Ret (97, Kbd [rx_word 0x32] 0 0 97) /\
  (forall n, polls n (Kbd [rx_word 0x32] 0 0 97)
             = Ret (replicate n 97, Kbd [rx_word 0x32] 0 0 97)) /\
  (forall n fuel rs k', polls n (Kbd [rx_word 0x32] 0 0 97) = Ret (rs, k') ->
     kbd_getc (S fuel) k' = Ret (97, Kbd [rx_word 0x32] 0 0 0)).
Proof.
  apply (pending_char_stalls_decoder (Kbd [rx_word 0x32] 0 0 97)). simpl. lia.
Defined.

(** ** Key presses *)

(** A scan code with a non-zero table entry is never a prefix or a shift. *)
Lemma mapped_is_ordinary (sh code c : Z) :
  0 <= code -> table_for sh !! Z.to_nat code = Some c -> c <> 0 -> ordinary code.
Proof.
  intros Hc Hv Hnz. unfold table_for in Hv.
  repeat split; intros ->; destruct (nonzero sh); vm_compute in Hv; congruence.
Qed.

(** A press of a mapped key, pulled with nothing pending and [release]
    clear, is returned by the very next [kbd_getc]. *)
Lemma kbd_getc_press (fuel : nat) (k : kbd) (w : Z) (q : list Z) (c : Z) :
  rxf k = w :: q -> ascii k = 0 -> release k = 0 ->
  table_for (shift k) !! Z.to_nat (rx_byte3 w) = Some c -> c <> 0 ->
  kbd_getc (S fuel) k = Ret (c, Kbd q 0 (shift k) 0).
Proof.
  intros Hq Ha Hr Hv Hnz.
  pose proof (rx_byte3_range w) as Hb.
  assert (Ho : ordinary (rx_byte3 w)) by (apply (mapped_is_ordinary (shift k) _ c); tauto).
  pose proof (tables_ascii7 _ _ _ (table_for_cases (shift k)) Hv) as Hc7.
  rewrite (kbd_getc_char fuel k (Kbd q 0 (shift k) c) c); [reflexivity| |lia].
  rewrite (kbd_ready_lookup k w q Ha Hq Ho Hr). unfold table_get. now rewrite Hv.
Qed.

(** C5.  From the start state, with the scan codes 0xF0, 0x1C queued, no
    call of [kbd_ready] ever returns a character -- two calls drain the
    FIFO and leave all flags clear -- and [kbd_getc] keeps waiting; with
    0x1C alone queued, every call of [kbd_ready] returns 'a', or 'A' when
    the shift flag is set. *)
Theorem release_suppresses_character (ws1 ws2 : list Z) :
  rx_byte3 <$> ws1 = [0xF0; 0x1C] -> rx_byte3 <$> ws2 = [0x1C] ->
  (forall n, exists k', polls n (kbd_start ws1) = Ret (replicate n 0, k') /\ ascii k' = 0) /\
  polls 2 (kbd_start ws1) = Ret ([0; 0], kbd_start []) /\
  (forall fuel, kbd_getc fuel (kbd_start ws1) = Spin) /\
  (forall n, polls (S n) (kbd_start ws2)
             = Ret (replicate (S n) (chr "a"), Kbd [] 0 0 (chr "a"))) /\
  (forall n sh, sh <> 0 ->
     polls (S n) (Kbd ws2 0 sh 0) = Ret (replicate (S n) (chr "A"), Kbd [] 0 sh (chr "A"))).
Proof.
  intros H1 H2.
  destruct ws1 as [|w1 [|w2 [|? ?]]]; try discriminate H1.
  destruct ws2 as [|w3 [|? ?]]; try discriminate H2.
  simpl in H1, H2. injection H1 as Hw1 Hw2. injection H2 as Hw3.
  assert (Hp1 : kbd_ready (kbd_start [w1; w2]) = Ret (0, Kbd [w2] 1 0 0))
    by now apply (kbd_ready_prefix (kbd_start [w1; w2]) w1 [w2]).
  assert (Hp2 : kbd_ready (Kbd [w2] 1 0 0) = Ret (0, kbd_start [])).
  { apply (kbd_ready_released (Kbd [w2] 1 0 0) w2 []); try reflexivity; [|discriminate].
    rewrite Hw2. repeat split; discriminate. }
  assert (Ho3 : ordinary (rx_byte3 w3)) by (rewrite Hw3; repeat split; discriminate).
  repeat split.
  - intros [|[|n]].
    + eexists. split; reflexivity.
    + eexists. rewrite (polls_step 0 _ _ _ Hp1). split; reflexivity.
    + eexists. rewrite (polls_step _ _ _ _ Hp1), (polls_step _ _ _ _ Hp2).
      rewrite polls_idle by reflexivity. split; reflexivity.
  - rewrite (polls_step _ _ _ _ Hp1), (polls_step _ _ _ _ Hp2). reflexivity.
  - intros [|[|fuel]]; try reflexivity.
    + now rewrite (kbd_getc_again _ _ _ Hp1).
    + rewrite (kbd_getc_again _ _ _ Hp1), (kbd_getc_again _ _ _ Hp2).
      now apply kbd_getc_idle.
  - intros n.
    rewrite (polls_step n _ (Kbd [] 0 0 (chr "a")) (chr "a")).
    + rewrite (polls_stall n (Kbd [] 0 0 (chr "a"))) by discriminate. reflexivity.
    + rewrite (kbd_ready_lookup (kbd_start [w3]) w3 []); try reflexivity; [|exact Ho3].
      rewrite Hw3. reflexivity.
  - intros n sh Hsh.
    rewrite (polls_step n _ (Kbd [] 0 sh (chr "A")) (chr "A")).
    + rewrite (polls_stall n (Kbd [] 0 sh (chr "A"))) by discriminate. reflexivity.
    + rewrite (kbd_ready_lookup (Kbd [w3] 0 sh 0) w3 []); try reflexivity; [|exact Ho3].
      rewrite Hw3. simpl shift. unfold table_for.
      apply nonzero_true in Hsh. rewrite Hsh. reflexivity.
Qed.

Lemma release_suppresses_character_witness :
  (forall n, exists k',
     polls n (kbd_start [rx_word 0xF0; rx_word 0x1C]) = Ret (replicate n 0, k') /\
     ascii k' = 0) /\
  polls 2 (kbd_start [rx_word 0xF0; rx_word 0x1C]) = Ret ([0; 0], kbd_start []) /\
  (forall fuel, kbd_getc fuel (kbd_start [rx_word 0xF0; rx_word 0x1C]) = Spin) /\
  (forall n, polls (S n) (kbd_start [rx_word 0x1C])
             = Ret (replicate (S n) (chr "a"), Kbd [] 0 0 (chr "a"))) /\
  (forall n sh, sh <> 0 ->
     polls (S n) (Kbd [rx_word 0x1C] 0 sh 0)
       = Ret (replicate (S n) (chr "A"), Kbd [] 0 sh (chr "A"))).
Proof.
  apply (release_suppresses_character [rx_word 0xF0; rx_word 0x1C] [rx_word 0x1C]);
    reflexivity.
Defined.

(** C6, as stated, fails when a queued press is of a key without a
    character.  0x05 and 0x1C are both ordinary scan codes, queued from the
    start state with [release] clear; [lower] has 0 at 0x05.  The first
    [kbd_getc] passes over 0x05 and returns 'a', the character of the
    second press, having pulled both words; the second call finds the FIFO
    empty and never returns. *)
Lemma unmapped_press_is_passed_over :
  ordinary (rx_byte3 (rx_word 0x05)) /\ ordinary (rx_byte3 (rx_word 0x1C)) /\
  lower !! Z.to_nat 0x05 = Some 0 /\
  kbd_ready (kbd_start [rx_word 0x05; rx_word 0x1C]) = Ret (0, kbd_start [rx_word 0x1C]) /\
  kbd_getc 1 (kbd_start [rx_word 0x05; rx_word 0x1C]) = Spin /\
  (forall f, kbd_getc (2 + f) (kbd_start [rx_word 0x05; rx_word 0x1C])
             = Ret (chr "a", kbd_start [])) /\
  (forall f, kbd_getc f (kbd_start []) = Spin).
Proof.
  split; [repeat split; discriminate|].
  split; [repeat split; discriminate|].
  split; [reflexivity|]. split; [reflexivity|]. split; [reflexivity|].
  split.
  - intros f. change (2 + f)%nat with (S (S f)).
    rewrite (kbd_getc_again (S f) (kbd_start [rx_word 0x05; rx_word 0x1C])
               (kbd_start [rx_word 0x1C])) by reflexivity.
    apply (kbd_getc_press f (kbd_start [rx_word 0x1C]) (rx_word 0x1C) [] (chr "a"));
      solve [reflexivity | discriminate].
  - intros f. now apply kbd_getc_idle.
Qed.

(** C6 (amended).  [kbd_getc] hands the pending character over and clears it: a
    call that finds a character pending returns it and leaves [ascii] zero
    with nothing else changed, and whatever a call returns is non-zero and
    leaves [ascii] zero.  With two presses of mapped keys at the head of
    the FIFO, nothing pending and [release] clear, the first call returns
    the character of the first press and pulls only that word, and the
    second call returns the character of the second press. *)
Theorem kbd_getc_takes_chars_in_order (k : kbd) (w1 w2 : Z) (q : list Z) (c1 c2 : Z) :
  rxf k = w1 :: w2 :: q -> ascii k = 0 -> release k = 0 ->
  table_for (shift k) !! Z.to_nat (rx_byte3 w1) = Some c1 -> c1 <> 0 ->
  table_for (shift k) !! Z.to_nat (rx_byte3 w2) = Some c2 -> c2 <> 0 ->
  (forall fuel k0 c k', kbd_getc fuel k0 = Ret (c, k') -> c <> 0 /\ ascii k' = 0) /\
  (forall fuel k0, 0 < ascii k0 < 256 ->
     kbd_getc (S fuel) k0 = Ret (ascii k0, Kbd (rxf k0) (release k0) (shift k0) 0)) /\
  (forall f1 f2,
     kbd_getc (S f1) k = Ret (c1, Kbd (w2 :: q) 0 (shift k) 0) /\
     kbd_getc (S f2) (Kbd (w2 :: q) 0 (shift k) 0) = Ret (c2, Kbd q 0 (shift k) 0)).
Proof.
  intros Hq Ha Hr Hv1 Hn1 Hv2 Hn2.
  split; [intros fuel k0 c k'; apply kbd_getc_returns|].
  split; [intros fuel k0; apply kbd_getc_pending|].
  intros f1 f2. split.
  - now apply (kbd_getc_press f1 k w1 (w2 :: q) c1).
  - now apply (kbd_getc_press f2 (Kbd (w2 :: q) 0 (shift k) 0) w2 q c2).
Qed.

Lemma kbd_getc_takes_chars_in_order_witness :
  (forall fuel k0 c k', kbd_getc fuel k0 = Ret (c, k') -> c <> 0 /\ ascii k' = 0) /\
  (forall fuel k0, 0 < ascii k0 < 256 ->
     kbd_getc (S fuel) k0 = Ret (ascii k0, Kbd (rxf k0) (release k0) (shift k0) 0)) /\
  (forall f1 f2,
     kbd_getc (S f1) (kbd_start [rx_word 0x1C; rx_word 0x32])
       = Ret (chr "a", Kbd [rx_word 0x32] 0 0 0) /\
     kbd_getc (S f2) (Kbd [rx_word 0x32] 0 0 0) = Ret (chr "b", Kbd [] 0 0 0)).
Proof.
  apply (kbd_getc_takes_chars_in_order
           (kbd_start [rx_word 0x1C; rx_word 0x32]) (rx_word 0x1C) (rx_word 0x32) []
           (chr "a") (chr "b"));
    solve [reflexivity | discriminate].
Defined.

(** C7.  From the start state, with the scan codes 0x1C, 0xF0, 0x1C, 0x32
    queued and shift never engaged, the first [kbd_getc] returns 'a' after
    one turn of its loop, the second returns 'b' after three, the FIFO is
    then empty with all flags clear, and a third call finds nothing more. *)
Theorem press_release_press_reads_ab (ws : list Z) :
  rx_byte3 <$> ws = [0x1C; 0xF0; 0x1C; 0x32] ->
  exists k1,
    (forall f1, kbd_getc (1 + f1) (kbd_start ws) = Ret (chr "a", k1)) /\
    (forall f2, kbd_getc (3 + f2) k1 = Ret (chr "b", kbd_start [])) /\
    (forall f3, kbd_getc f3 (kbd_start []) = Spin).
Proof.
  intros H.
  destruct ws as [|w1 [|w2 [|w3 [|w4 [|? ?]]]]]; try discriminate H.
  simpl in H. injection H as Hw1 Hw2 Hw3 Hw4.
  exists (Kbd [w2; w3; w4] 0 0 0). repeat split.
  - intros f1.
    apply (kbd_getc_press f1 (kbd_start [w1; w2; w3; w4]) w1 [w2; w3; w4]);
      try reflexivity; [|discriminate].
    rewrite Hw1. reflexivity.
  - intros f2. change (3 + f2)%nat with (S (S (S f2))).
    rewrite (kbd_getc_again _ _ (Kbd [w3; w4] 1 0 0))
      by now apply (kbd_ready_prefix (Kbd [w2; w3; w4] 0 0 0) w2 [w3; w4]).
    rewrite (kbd_getc_again _ _ (Kbd [w4] 0 0 0)).
    + apply (kbd_getc_press f2 (Kbd [w4] 0 0 0) w4 []);
        try reflexivity; [|discriminate].
      rewrite Hw4. reflexivity.
    + apply (kbd_ready_released (Kbd [w3; w4] 1 0 0) w3 [w4]);
        try reflexivity; [|discriminate].
      rewrite Hw3. repeat split; discriminate.
  - intros f3. now apply kbd_getc_idle.
Qed.

Lemma press_release_press_reads_ab_witness :
  exists k1,
    (forall f1, kbd_getc (1 + f1)
                  (kbd_start [rx_word 0x1C; rx_word 0xF0; rx_word 0x1C; rx_word 0x32])
                = Ret (chr "a", k1)) /\
    (forall f2, kbd_getc (3 + f2) k1 = Ret (chr "b", kbd_start [])) /\
    (forall f3, kbd_getc f3 (kbd_start []) = Spin).
Proof.
  apply (press_release_press_reads_ab
           [rx_word 0x1C; rx_word 0xF0; rx_word 0x1C; rx_word 0x32]).
  reflexivity.
Defined.

(** C8.  Two 0x12 scan codes in a row, pulled with no character pending,
    leave [shift] set, whatever the flags were before; neither call
    returns a character.  With [release] clear before the first, the
    second press changes nothing but the FIFO. *)
Theorem shift_press_twice_stays_set (k : kbd) (w1 w2 : Z) (q : list Z) :
  rxf k = w1 :: w2 :: q -> ascii k = 0 ->
  rx_byte3 w1 = 0x12 -> rx_byte3 w2 = 0x12 ->
  exists k1,
    kbd_ready k = Ret (0, k1) /\
    kbd_ready k1 = Ret (0, Kbd q 0 1 0) /\
    polls 2 k = Ret ([0; 0], Kbd q 0 1 0) /\
    (release k = 0 -> k1 = Kbd (w2 :: q) 0 1 0).
Proof.
  intros Hq Ha Hw1 Hw2.
  pose proof (kbd_ready_shift k w1 (w2 :: q) Ha Hq (or_introl Hw1)) as H1.
  set (k1 := Kbd (w2 :: q) 0 (if nonzero (release k) then 0 else 1) 0) in H1.
  assert (H2 : kbd_ready k1 = Ret (0, Kbd q 0 1 0))
    by (apply (kbd_ready_shift k1 w2 q); auto).
  exists k1. repeat split; try assumption.
  - rewrite (polls_step 1 k k1 0 H1), (polls_step 0 k1 _ 0 H2). reflexivity.
  - intros Hr. apply nonzero_false in Hr. subst k1. now rewrite Hr.
Qed.

Lemma shift_press_twice_stays_set_witness :
  exists k1,
    kbd_ready (kbd_start [rx_word 0x12; rx_word 0x12]) = Ret (0, k1) /\
    kbd_ready k1 = Ret (0, Kbd [] 0 1 0) /\
    polls 2 (kbd_start [rx_word 0x12; rx_word 0x12]) = Ret ([0; 0], Kbd [] 0 1 0) /\
    (release (kbd_start [rx_word 0x12; rx_word 0x12]) = 0 ->
     k1 = Kbd [rx_word 0x12] 0 1 0).
Proof.
  apply (shift_press_twice_stays_set
           (kbd_start [rx_word 0x12; rx_word 0x12]) (rx_word 0x12) (rx_word 0x12) []);
    reflexivity.
Defined.

(** C9.  Backspace, tab, line feed and escape sit at the scan codes of
    their keys (0x66, 0x0D, 0x5A, 0x76) with the same value in [lower] and
    in [upper], and a press of such a key is decoded to that control
    character whatever the shift flag holds. *)
Theorem control_chars_ignore_shift :
  (lower !! Z.to_nat 0x66 = Some BS /\ upper !! Z.to_nat 0x66 = Some BS) /\
  (lower !! Z.to_nat 0x0D = Some TAB /\ upper !! Z.to_nat 0x0D = Some TAB) /\
  (lower !! Z.to_nat 0x5A = Some LF /\ upper !! Z.to_nat 0x5A = Some LF) /\
  (lower !! Z.to_nat 0x76 = Some ESC /\ upper !! Z.to_nat 0x76 = Some ESC) /\
  (BS = 0x08 /\ TAB = 0x09 /\ LF = 0x0A /\ ESC = 0x1B) /\
  (forall code c q sh,
     In (code, c) [(0x66, BS); (0x0D, TAB); (0x5A, LF); (0x76, ESC)] ->
     kbd_ready (Kbd (rx_word code :: q) 0 sh 0) = Ret (c, Kbd q 0 sh c)).
Proof.
  repeat split; try reflexivity.
  intros code c q sh Hin. simpl in Hin.
  assert (Hlk : ordinary code /\ rx_byte3 (rx_word code) = code /\
                lower !! Z.to_nat code = Some c /\ upper !! Z.to_nat code = Some c).
  { destruct Hin as [H|[H|[H|[H|[]]]]]; injection H as <- <-;
      repeat split; solve [reflexivity | discriminate]. }
  destruct Hlk as (Ho & Hb & Hl & Hu).
  rewrite (kbd_ready_lookup (Kbd (rx_word code :: q) 0 sh 0) (rx_word code) q);
    try reflexivity; [|now rewrite Hb].
  rewrite Hb. simpl shift. unfold table_get, table_for.
  destruct (nonzero sh); [rewrite Hu|rewrite Hl]; reflexivity.
Qed.

(** ** The release flag along a history *)

Lemma kbd_ready_release_after (k k' : kbd) (w : Z) (q : list Z) (r : Z) :
  rxf k = w :: q -> ascii k = 0 -> kbd_ready k = Ret (r, k') ->
  release k' = if rx_byte3 w =? 0xF0 then 1 else 0.
Proof.
  intros Hq Ha Hk.
  destruct (Z.eqb_spec (rx_byte3 w) 0xF0) as [H1|H1].
  { rewrite (kbd_ready_prefix k w q Ha Hq H1) in Hk. now injection Hk as _ <-. }
  destruct (Z.eq_dec (rx_byte3 w) 0x12) as [H2|H2].
  { rewrite (kbd_ready_shift k w q Ha Hq (or_introl H2)) in Hk. now injection Hk as _ <-. }
  destruct (Z.eq_dec (rx_byte3 w) 0x59) as [H3|H3].
  { rewrite (kbd_ready_shift k w q Ha Hq (or_intror H3)) in Hk. now injection Hk as _ <-. }
  assert (Ho : ordinary (rx_byte3 w)) by (repeat split; assumption).
  destruct (Z.eq_dec (release k) 0) as [Hr|Hr].
  - rewrite (kbd_ready_lookup k w q Ha Hq Ho Hr) in Hk.
    destruct (table_get (table_for (shift k)) (rx_byte3 w)); try discriminate Hk.
    now injection Hk as _ <-.
  - rewrite (kbd_ready_released k w q Ha Hq Ho Hr) in Hk. now injection Hk as _ <-.
Qed.

Lemma kbd_ready_tracks (k k' : kbd) (last : option Z) (r : Z) :
  (release k <> 0 <-> last = Some 0xF0) -> kbd_ready k = Ret (r, k') ->
  (release k' <> 0 <-> pulled k last = Some 0xF0).
Proof.
  intros Inv Hk. unfold pulled.
  destruct (nonzero (ascii k)) eqn:Ha.
  { apply nonzero_true in Ha. rewrite kbd_ready_pending in Hk by exact Ha.
    now injection Hk as _ <-. }
  apply nonzero_false in Ha.
  destruct (rxf k) as [|w q] eqn:Hq.
  { rewrite kbd_ready_empty in Hk by assumption. now injection Hk as _ <-. }
  rewrite (kbd_ready_release_after k k' w q r Hq Ha Hk).
  destruct (Z.eqb_spec (rx_byte3 w) 0xF0) as [->|Hne].
  - split; [reflexivity|discriminate].
  - split; [contradiction|]. intros H. injection H as H. contradiction.
Qed.

Lemma run_tracks (es : list event) (k k' : kbd) (last last' : option Z) :
  (release k <> 0 <-> last = Some 0xF0) -> run es k last = Ret (k', last') ->
  (release k' <> 0 <-> last' = Some 0xF0).
Proof.
  revert k last. induction es as [|e es IH]; intros k last Inv H.
  - simpl in H. now injection H as <- <-.
  - destruct e as [w| |]; simpl in H.
    + apply (IH (set_rxf (rxf k ++ [w]) k) last); [exact Inv|exact H].
    + destruct (kbd_ready k) as [[r k1]| |] eqn:Hk; try discriminate H.
      apply (IH k1 (pulled k last)); [|exact H].
      apply (kbd_ready_tracks k k1 last r Inv Hk).
    + apply (IH (set_ascii 0 k) last); [exact Inv|exact H].
Qed.

Lemma run_app (es1 es2 : list event) (k : kbd) (last : option Z) :
  run (es1 ++ es2) k last = '(k1, last1) ← run es1 k last; run es2 k1 last1.
Proof.
  revert k last. induction es1 as [|e es1 IH]; intros k last; [reflexivity|].
  destruct e as [w| |]; simpl.
  - apply IH.
  - destruct (kbd_ready k) as [[r k1]| |]; simpl; [apply IH|reflexivity..].
  - apply IH.
Qed.

Lemma polls_as_events (n : nat) (k k' : kbd) (rs : list Z) (last : option Z) :
  polls n k = Ret (rs, k') ->
  exists last', run (replicate n Poll) k last = Ret (k', last').
Proof.
  revert k rs last. induction n as [|n IH]; intros k rs last H.
  - injection H as _ <-. exists last. reflexivity.
  - simpl in H. destruct (kbd_ready k) as [[r k1]| |] eqn:Hk; try discriminate H.
    simpl in H. destruct (polls n k1) as [[rs1 k2]| |] eqn:Hp; try discriminate H.
    injection H as _ <-.
    destruct (IH k1 rs1 (pulled k last) Hp) as [last' Hrun].
    exists last'. simpl. rewrite Hk. exact Hrun.
Qed.

(** A returning [kbd_getc] is a history of polls closed by a take. *)
Lemma kbd_getc_as_events (fuel : nat) (k k' : kbd) (c : Z) (last : option Z) :
  kbd_getc fuel k = Ret (c, k') ->
  exists n last', run (replicate n Poll ++ [Take]) k last = Ret (k', last').
Proof.
  intros H. destruct (kbd_getc_polls fuel k k' c H) as (n & rs & k1 & _ & Hp & ->).
  destruct (polls_as_events n k k1 rs last Hp) as [last' Hrun].
  exists n, last'. rewrite run_app, Hrun. reflexivity.
Qed.

(** *** The same on the routines as the processor runs them *)

Lemma machine_scan_switch_agrees (behind : list Z -> Z -> Z) (code : Z) (k k' : kbd) :
  scan_switch code k = Ret k' -> Machine.scan_switch behind code k = k'.
Proof.
  unfold scan_switch, Machine.scan_switch, table_get, Machine.table_get,
    mbind, mret, result_bind, result_ret.
  destruct (code =? 0xF0); [intros H; now injection H|].
  destruct ((code =? 0x12) || (code =? 0x59));
    [destruct (nonzero (release k)); intros H; now injection H|].
  destruct (nonzero (release k)); cbn [negb]; [intros H; now injection H|].
  destruct (table_for (shift k) !! Z.to_nat code); [|discriminate].
  intros H. now injection H.
Qed.

Lemma machine_kbd_ready_agrees (behind : list Z -> Z -> Z) (k k' : kbd) (r : Z) :
  kbd_ready k = Ret (r, k') -> Machine.kbd_ready behind k = (r, k').
Proof.
  unfold kbd_ready, Machine.kbd_ready.
  destruct (nonzero (ascii k)); [intros H; now injection H as <- <-|].
  destruct (rxf k) as [|w q]; [intros H; now injection H as <- <-|].
  destruct (scan_switch (rx_byte3 w) (set_rxf q k)) as [k1| |] eqn:Hs;
    unfold mbind, mret, result_bind, result_ret; try discriminate.
  intros H. injection H as <- <-.
  now rewrite (machine_scan_switch_agrees behind _ _ _ Hs).
Qed.

Lemma machine_release_after (behind : list Z -> Z -> Z) (k : kbd) (w : Z) (q : list Z) :
  rxf k = w :: q -> ascii k = 0 ->
  release (Machine.kbd_ready behind k).2 = if rx_byte3 w =? 0xF0 then 1 else 0.
Proof.
  intros Hq Ha. unfold Machine.kbd_ready, Machine.scan_switch.
  apply nonzero_false in Ha. rewrite Ha, Hq.
  destruct (rx_byte3 w =? 0xF0); [reflexivity|].
  destruct ((rx_byte3 w =? 0x12) || (rx_byte3 w =? 0x59));
    [|reflexivity].
  unfold set_rxf. cbn [release].
  destruct (nonzero (release k)) eqn:Hr; cbn [snd]; [reflexivity|].
  apply nonzero_false in Hr. unfold set_shift. cbn [release]. exact Hr.
Qed.

Lemma machine_kbd_ready_tracks (behind : list Z -> Z -> Z) (k : kbd) (last : option Z) :
  (release k <> 0 <-> last = Some 0xF0) ->
  (release (Machine.kbd_ready behind k).2 <> 0 <-> pulled k last = Some 0xF0).
Proof.
  intros Inv. unfold pulled.
  destruct (nonzero (ascii k)) eqn:Ha.
  { unfold Machine.kbd_ready. now rewrite Ha. }
  destruct (rxf k) as [|w q] eqn:Hq.
  { unfold Machine.kbd_ready. now rewrite Ha, Hq. }
  apply nonzero_false in Ha.
  rewrite (machine_release_after behind k w q Hq Ha).
  destruct (Z.eqb_spec (rx_byte3 w) 0xF0) as [->|Hne].
  - split; [reflexivity|discriminate].
  - split; [contradiction|]. intros H. injection H as H. contradiction.
Qed.

Lemma machine_run_tracks (behind : list Z -> Z -> Z)
    (es : list event) (k k' : kbd) (last last' : option Z) :
  (release k <> 0 <-> last = Some 0xF0) ->
  Machine.run behind es k last = (k', last') ->
  (release k' <> 0 <-> last' = Some 0xF0).
Proof.
  revert k last. induction es as [|e es IH]; intros k last Inv H.
  - cbn [Machine.run] in H. now injection H as <- <-.
  - destruct e as [w| |]; cbn [Machine.run] in H.
    + apply (IH (set_rxf (rxf k ++ [w]) k) last); [exact Inv|exact H].
    + apply (IH _ _ (machine_kbd_ready_tracks behind k last Inv) H).
    + apply (IH (set_ascii 0 k) last); [exact Inv|exact H].
Qed.

Lemma machine_run_app (behind : list Z -> Z -> Z)
    (es1 es2 : list event) (k : kbd) (last : option Z) :
  Machine.run behind (es1 ++ es2) k last =
  Machine.run behind es2 (Machine.run behind es1 k last).1
                         (Machine.run behind es1 k last).2.
Proof.
  revert k last. induction es1 as [|e es1 IH]; intros k last; [reflexivity|].
  destruct e as [w| |]; cbn [app Machine.run]; apply IH.
Qed.

(** A returning [kbd_getc] is a history of polls closed by a take. *)
Lemma machine_kbd_getc_as_events (behind : list Z -> Z -> Z)
    (fuel : nat) (k k' : kbd) (c : Z) (last : option Z) :
  Machine.kbd_getc behind fuel k = Some (c, k') ->
  exists n, (Machine.run behind (replicate n Poll ++ [Take]) k last).1 = k'.
Proof.
  revert k last. induction fuel as [|fuel IH]; intros k last H; [discriminate|].
  cbn [Machine.kbd_getc] in H.
  destruct (Machine.kbd_ready behind k) as [r k1] eqn:Hk.
  destruct (nonzero (to_char r)).
  - injection H as _ <-. exists 1%nat.
    cbn [replicate app Machine.run]. now rewrite Hk.
  - destruct (IH k1 (pulled k last) H) as [n Hn].
    exists (S n). cbn [replicate app Machine.run]. now rewrite Hk.
Qed.

(** C10.  Along every history from the start state -- words arriving,
    calls of [kbd_ready], characters taken by [kbd_getc] -- [release] is
    set exactly when the scan code pulled last was 0xF0, whatever scan
    codes arrive and whatever bytes lie behind the tables.  For one call
    that pulls a scan code, in any state whatever: after 0xF0 [release] is
    1, after any other byte -- shift code, key code, or a code past the
    tables -- it is 0.  The routines meant are the ones the processor
    runs; they return what the checked ones return, and every returning
    [kbd_getc] is such a history. *)
Theorem release_set_exactly_after_prefix
    (behind : list Z -> Z -> Z)
    (es : list event) (q : list Z) (k : kbd) (last : option Z) :
  Machine.run behind es (kbd_start q) None = (k, last) ->
  (release k <> 0 <-> last = Some 0xF0) /\
  (forall k0 w q0, rxf k0 = w :: q0 -> ascii k0 = 0 ->
     (rx_byte3 w = 0xF0 -> release (Machine.kbd_ready behind k0).2 = 1) /\
     (rx_byte3 w <> 0xF0 -> release (Machine.kbd_ready behind k0).2 = 0)) /\
  (forall k0 r k', kbd_ready k0 = Ret (r, k') ->
     Machine.kbd_ready behind k0 = (r, k')) /\
  (forall fuel k0 c k' last0, Machine.kbd_getc behind fuel k0 = Some (c, k') ->
     exists n, (Machine.run behind (replicate n Poll ++ [Take]) k0 last0).1 = k').
Proof.
  intros H. split; [|split; [|split]].
  - apply (machine_run_tracks behind es (kbd_start q) k None last); [|exact H].
    cbn [release kbd_start]. split; [contradiction|discriminate].
  - intros k0 w q0 Hq Ha.
    rewrite (machine_release_after behind k0 w q0 Hq Ha).
    destruct (Z.eqb_spec (rx_byte3 w) 0xF0); split; congruence.
  - intros k0 r k'. apply machine_kbd_ready_agrees.
  - intros fuel k0 c k' last0. apply machine_kbd_getc_as_events.
Qed.

Lemma release_set_exactly_after_prefix_witness :
  let behind := fun (_ : list Z) (_ : Z) => 1 in
  (release (Kbd [] 1 0 0) <> 0 <-> Some 0xF0 = Some 0xF0) /\
  (forall k0 w q0, rxf k0 = w :: q0 -> ascii k0 = 0 ->
     (rx_byte3 w = 0xF0 -> release (Machine.kbd_ready behind k0).2 = 1) /\
     (rx_byte3 w <> 0xF0 -> release (Machine.kbd_ready behind k0).2 = 0)) /\
  (forall k0 r k', kbd_ready k0 = Ret (r, k') ->
     Machine.kbd_ready behind k0 = (r, k')) /\
  (forall fuel k0 c k' last0, Machine.kbd_getc behind fuel k0 = Some (c, k') ->
     exists n, (Machine.run behind (replicate n Poll ++ [Take]) k0 last0).1 = k').
Proof.
  apply (release_set_exactly_after_prefix (fun _ _ => 1)
           [Poll; Take; Poll; Take; Arrive (rx_word 0xF0); Poll]
           [rx_word 0xE0; rx_word 0x83]
           (Kbd [] 1 0 0) (Some 0xF0)).
  reflexivity.
Defined.

(** * Further properties of the decoder *)

(** From here on the byte extraction is kept folded. *)
Arguments rx_byte3 : simpl never.

(** ** When a call goes wrong *)

Lemma kbd_ready_not_spin (k : kbd) : kbd_ready k <> Spin.
Proof.
  unfold kbd_ready, scan_switch, table_get.
  repeat case_match; simpl; discriminate.
Qed.

Lemma kbd_ready_fault_head (k : kbd) (i : Z) :
  kbd_ready k = OutOfBounds i ->
  ascii k = 0 /\ release k = 0 /\
  exists w q, rxf k = w :: q /\ rx_byte3 w = i /\ 128 <= i /\ i <> 0xF0.
Proof.
  intros H.
  destruct (Z.eq_dec (ascii k) 0) as [Ha|Ha];
    [|rewrite kbd_ready_pending in H by exact Ha; discriminate].
  destruct (rxf k) as [|w q] eqn:Hq;
    [rewrite kbd_ready_empty in H by assumption; discriminate|].
  destruct (Z.eq_dec (rx_byte3 w) 0xF0) as [H1|H1];
    [rewrite (kbd_ready_prefix k w q) in H by assumption; discriminate|].
  destruct (Z.eq_dec (rx_byte3 w) 0x12) as [H2|H2];
    [rewrite (kbd_ready_shift k w q) in H by auto; discriminate|].
  destruct (Z.eq_dec (rx_byte3 w) 0x59) as [H3|H3];
    [rewrite (kbd_ready_shift k w q) in H by auto; discriminate|].
  assert (Ho : ordinary (rx_byte3 w)) by (repeat split; assumption).
  destruct (Z.eq_dec (release k) 0) as [Hr|Hr];
    [|rewrite (kbd_ready_released k w q) in H by assumption; discriminate].
  rewrite (kbd_ready_lookup k w q Ha Hq Ho Hr) in H.
  destruct (Z_lt_ge_dec (rx_byte3 w) 128) as [Hlt|Hge].
  - pose proof (rx_byte3_range w) as Hb.
    destruct (table_get_inside (shift k) (rx_byte3 w)) as (v & _ & Hg); [lia|].
    rewrite Hg in H. discriminate.
  - rewrite table_get_outside in H by lia. injection H as <-.
    repeat split; try assumption. exists w, q. repeat split; try assumption. lia.
Qed.

(** X1.  [kbd_ready] reads past the end of a table exactly when no
    character is pending, [release] is clear, and the word at the head of
    the FIFO carries a scan code from 128 up other than 0xF0; the index read
    is that scan code.  It never stays in a loop. *)
Theorem kbd_ready_fault_iff (k : kbd) (i : Z) :
  (kbd_ready k = OutOfBounds i <->
   ascii k = 0 /\ release k = 0 /\
   exists w q, rxf k = w :: q /\ rx_byte3 w = i /\ 128 <= i /\ i <> 0xF0) /\
  kbd_ready k <> Spin.
Proof.
  split; [|apply kbd_ready_not_spin]. split.
  - apply kbd_ready_fault_head.
  - intros (Ha & Hr & w & q & Hq & <- & Hge & Hne).
    apply (kbd_ready_faults k w q); try assumption.
    repeat split; [assumption|lia|lia].
Qed.

(** ** How long [kbd_getc] loops *)

Lemma kbd_ready_rxf (k k' : kbd) (w : Z) (q : list Z) (r : Z) :
  ascii k = 0 -> rxf k = w :: q -> kbd_ready k = Ret (r, k') -> rxf k' = q.
Proof.
  intros Ha Hq. rewrite (kbd_ready_pop k w q Ha Hq).
  unfold scan_switch, table_get.
  repeat case_match; simpl; intros Hk; try discriminate Hk;
    injection Hk as _ <-; reflexivity.
Qed.

(** A pending value that reads as the zero [char] is never handed over. *)
Lemma kbd_getc_stuck (fuel : nat) (k : kbd) :
  ascii k <> 0 -> to_char (ascii k) = 0 -> kbd_getc fuel k = Spin.
Proof.
  intros Ha Hc. induction fuel as [|fuel IH]; [reflexivity|].
  simpl. rewrite (kbd_ready_pending k Ha). simpl. rewrite Hc. exact IH.
Qed.

Lemma kbd_getc_more_fuel (fuel extra : nat) (k : kbd) :
  kbd_getc fuel k <> Spin -> kbd_getc (fuel + extra) k = kbd_getc fuel k.
Proof.
  revert k. induction fuel as [|fuel IH]; intros k H; [now contradiction H|].
  simpl in *. destruct (kbd_ready k) as [[r k1]| |]; simpl in *; try reflexivity.
  destruct (nonzero (to_char r)); [reflexivity|now apply IH].
Qed.

(** With a character pending the number of turns allowed is immaterial. *)
Lemma kbd_getc_pending_any (a b : nat) (k : kbd) :
  ascii k <> 0 -> kbd_getc (S a) k = kbd_getc (S b) k.
Proof.
  intros Ha. simpl. rewrite (kbd_ready_pending k Ha). simpl.
  destruct (nonzero (to_char (ascii k))) eqn:Hc; [reflexivity|].
  apply nonzero_false in Hc. now rewrite !kbd_getc_stuck.
Qed.

Lemma kbd_getc_settles (m n : nat) (k : kbd) :
  length (rxf k) = m -> kbd_getc (S m + n) k = kbd_getc (S m) k.
Proof.
  revert k. induction m as [|m IH]; intros k Hm;
    (destruct (Z.eq_dec (ascii k) 0) as [Ha|Ha];
     [|now apply kbd_getc_pending_any]).
  - destruct (rxf k) as [|w q] eqn:Hq; [|discriminate Hm].
    now rewrite !kbd_getc_idle.
  - destruct (rxf k) as [|w q] eqn:Hq; [discriminate Hm|].
    change (kbd_getc (S (S m) + n) k) with
      ('(r, k') ← kbd_ready k;
       if nonzero (to_char r) then mret (to_char r, set_ascii 0 k')
       else kbd_getc (S m + n) k').
    change (kbd_getc (S (S m)) k) with
      ('(r, k') ← kbd_ready k;
       if nonzero (to_char r) then mret (to_char r, set_ascii 0 k')
       else kbd_getc (S m) k').
    destruct (kbd_ready k) as [[r k1]| |] eqn:Hk; simpl; try reflexivity.
    destruct (nonzero (to_char r)); [reflexivity|].
    apply IH. rewrite (kbd_ready_rxf k k1 w q r Ha Hq Hk).
    simpl in Hm. lia.
Qed.

(** X2.  [kbd_getc] needs at most one turn of its loop per queued word,
    and one more: allowing further turns changes nothing.  So a call that
    is still looping after that many turns loops for good on this FIFO
    content, and a call that returns or goes wrong does so within them. *)
Theorem kbd_getc_fuel_bound (k : kbd) :
  let enough := S (length (rxf k)) in
  (forall n, kbd_getc (enough + n) k = kbd_getc enough k) /\
  (kbd_getc enough k = Spin -> forall fuel, kbd_getc fuel k = Spin) /\
  (forall fuel, kbd_getc fuel k <> Spin -> kbd_getc fuel k = kbd_getc enough k).
Proof.
  intros enough.
  assert (Hset : forall n, kbd_getc (enough + n) k = kbd_getc enough k)
    by (intros n; now apply kbd_getc_settles).
  assert (Hlow : forall fuel, kbd_getc fuel k <> Spin ->
                              kbd_getc fuel k = kbd_getc enough k).
  { intros fuel Hns.
    rewrite <- (kbd_getc_more_fuel fuel enough k Hns).
    replace (fuel + enough)%nat with (enough + fuel)%nat by lia.
    apply Hset. }
  split; [exact Hset|]. split; [|exact Hlow].
  intros Hspin fuel.
  destruct (kbd_getc fuel k) as [p|i|] eqn:Hf; [| |reflexivity];
    rewrite <- Hspin, <- (Hlow fuel); try (symmetry; exact Hf);
    rewrite Hf; discriminate.
Qed.

Lemma kbd_getc_fuel_bound_witness :
  let k := kbd_start [rx_word 0xF0; rx_word 0x1C; rx_word 0x32] in
  let enough := S (length (rxf k)) in
  (forall n, kbd_getc (enough + n) k = kbd_getc enough k) /\
  (kbd_getc enough k = Spin -> forall fuel, kbd_getc fuel k = Spin) /\
  (forall fuel, kbd_getc fuel k <> Spin -> kbd_getc fuel k = kbd_getc enough k).
Proof.
  exact (kbd_getc_fuel_bound (kbd_start [rx_word 0xF0; rx_word 0x1C; rx_word 0x32])).
Defined.

(** ** The blocking read in terms of the poll *)

Lemma kbd_ready_returns_ascii (k k' : kbd) (r : Z) :
  kbd_ready k = Ret (r, k') -> r = ascii k'.
Proof.
  unfold kbd_ready. destruct (nonzero (ascii k)) eqn:Ha.
  - intros Hk. now injection Hk as <- <-.
  - apply nonzero_false in Ha. destruct (rxf k) as [|w q].
    + intros Hk. now injection Hk as <- <-.
    + destruct (scan_switch (rx_byte3 w) (set_rxf q k)); simpl; intros Hk;
        try discriminate Hk. now injection Hk as <- <-.
Qed.

(** What one returning call leaves behind, case by case. *)
Lemma kbd_ready_cases (k k' : kbd) (r : Z) :
  kbd_ready k = Ret (r, k') ->
  k' = k \/
  exists w q, rxf k = w :: q /\ ascii k = 0 /\
    (k' = Kbd q 1 (shift k) 0 \/
     k' = Kbd q 0 (if nonzero (release k) then 0 else 1) 0 \/
     k' = Kbd q 0 (shift k) 0 \/
     exists v, table_for (shift k) !! Z.to_nat (rx_byte3 w) = Some v /\
               k' = Kbd q 0 (shift k) v).
Proof.
  intros Hk.
  destruct (Z.eq_dec (ascii k) 0) as [Ha|Ha];
    [|rewrite kbd_ready_pending in Hk by exact Ha; injection Hk as _ <-; now left].
  destruct (rxf k) as [|w q] eqn:Hq;
    [rewrite kbd_ready_empty in Hk by assumption; injection Hk as _ <-; now left|].
  right. exists w, q. split; [reflexivity|]. split; [exact Ha|].
  destruct (Z.eq_dec (rx_byte3 w) 0xF0) as [H1|H1].
  { rewrite (kbd_ready_prefix k w q) in Hk by assumption. injection Hk as _ <-. auto. }
  destruct (Z.eq_dec (rx_byte3 w) 0x12) as [H2|H2].
  { rewrite (kbd_ready_shift k w q) in Hk by auto. injection Hk as _ <-. auto. }
  destruct (Z.eq_dec (rx_byte3 w) 0x59) as [H3|H3].
  { rewrite (kbd_ready_shift k w q) in Hk by auto. injection Hk as _ <-. auto. }
  assert (Ho : ordinary (rx_byte3 w)) by (repeat split; assumption).
  destruct (Z.eq_dec (release k) 0) as [Hr|Hr].
  - rewrite (kbd_ready_lookup k w q Ha Hq Ho Hr) in Hk. unfold table_get in Hk.
    destruct (table_for (shift k) !! Z.to_nat (rx_byte3 w)) as [v|] eqn:Hv;
      [|discriminate Hk].
    injection Hk as _ <-. right. right. right. exists v. auto.
  - rewrite (kbd_ready_released k w q) in Hk by assumption. injection Hk as _ <-. auto.
Qed.

Lemma kbd_ready_keeps_byte (k k' : kbd) (r : Z) :
  0 <= ascii k < 256 -> kbd_ready k = Ret (r, k') -> 0 <= ascii k' < 256.
Proof.
  intros Hb Hk.
  destruct (kbd_ready_cases k k' r Hk)
    as [->|(w & q & _ & _ & [->|[->|[->|(v & Hv & ->)]]])]; simpl; try lia.
  pose proof (tables_ascii7 _ _ _ (table_for_cases (shift k)) Hv). lia.
Qed.

(** X3.  With the pending character a byte, [kbd_getc] returns [c] exactly
    when some number of calls of [kbd_ready], within the turns allowed,
    return 0 and the next one returns [c], which is not 0; the state left
    is the one after that call with [ascii] cleared. *)
Theorem kbd_getc_is_polls_then_take (fuel : nat) (k k' : kbd) (c : Z) :
  0 <= ascii k < 256 ->
  (kbd_getc fuel k = Ret (c, k') <->
   exists n k1, (n < fuel)%nat /\ c <> 0 /\
     polls (S n) k = Ret (replicate n 0 ++ [c], k1) /\ k' = set_ascii 0 k1).
Proof.
  intros Hb. split.
  - revert k Hb. induction fuel as [|fuel IH]; intros k Hb H; [discriminate|].
    simpl in H. destruct (kbd_ready k) as [[r k1]| |] eqn:Hk; simpl in H;
      try discriminate H.
    pose proof (kbd_ready_keeps_byte k k1 r Hb Hk) as Hb1.
    pose proof (kbd_ready_returns_ascii k k1 r Hk) as Hr.
    rewrite to_char_byte in H by lia.
    destruct (nonzero r) eqn:Hnz.
    + injection H as <- <-. apply nonzero_true in Hnz.
      exists 0%nat, k1. repeat split; [lia|exact Hnz|].
      now rewrite (polls_step 0 k k1 r Hk).
    + apply nonzero_false in Hnz. subst r.
      destruct (IH k1 Hb1 H) as (n & k2 & Hn & Hc & Hp & ->).
      exists (S n), k2. repeat split; [lia|exact Hc|].
      rewrite (polls_step (S n) k k1 _ Hk), Hp. reflexivity.
  - intros (n & k1 & Hn & Hc & Hp & ->).
    revert fuel k Hb Hn Hp. induction n as [|n IH]; intros fuel k Hb Hn Hp;
      (destruct fuel as [|fuel]; [lia|]);
      simpl in Hp; destruct (kbd_ready k) as [[r k2]| |] eqn:Hk; simpl in Hp;
      try discriminate Hp.
    + injection Hp as -> ->.
      pose proof (kbd_ready_keeps_byte k k1 c Hb Hk) as Hb1.
      pose proof (kbd_ready_returns_ascii k k1 c Hk) as Hr.
      apply kbd_getc_char; [exact Hk|lia].
    + destruct (kbd_ready k2) as [[r3 k3]| |] eqn:Hk2; simpl in Hp;
        try discriminate Hp.
      destruct (polls n k3) as [[rs k4]| |] eqn:Hp3; simpl in Hp;
        try discriminate Hp.
      injection Hp as -> Hrs ->.
      rewrite (kbd_getc_again fuel k k2 Hk).
      apply IH; [exact (kbd_ready_keeps_byte k k2 0 Hb Hk)|lia|].
      simpl. rewrite Hk2. simpl. rewrite Hp3. simpl. now rewrite Hrs.
Qed.

Lemma kbd_getc_is_polls_then_take_witness :
  kbd_getc 3 (kbd_start [rx_word 0xF0; rx_word 0x1C; rx_word 0x32])
    = Ret (chr "b", kbd_start []) <->
  exists n k1, (n < 3)%nat /\ chr "b" <> 0 /\
    polls (S n) (kbd_start [rx_word 0xF0; rx_word 0x1C; rx_word 0x32])
      = Ret (replicate n 0 ++ [chr "b"], k1) /\
    kbd_start [] = set_ascii 0 k1.
Proof.
  apply (kbd_getc_is_polls_then_take 3
           (kbd_start [rx_word 0xF0; rx_word 0x1C; rx_word 0x32])
           (kbd_start []) (chr "b")).
  simpl. lia.
Defined.

(** ** Flags in the states the decoder gets into *)

Lemma table_entry_in_tables (sh : Z) (i : nat) (v : Z) :
  table_for sh !! i = Some v -> v ∈ lower ++ upper.
Proof.
  intros Hv. apply elem_of_app. unfold table_for in Hv.
  destruct (nonzero sh); [right|left]; apply list_elem_of_lookup; eauto.
Qed.

Lemma in_tables_ascii7 (v : Z) : v ∈ lower ++ upper -> 0 <= v < 128.
Proof.
  intros Hv. apply elem_of_app in Hv.
  destruct Hv as [Hv|Hv]; apply list_elem_of_lookup in Hv; destruct Hv as [i Hi].
  - apply (tables_ascii7 lower i v); auto.
  - apply (tables_ascii7 upper i v); auto.
Qed.

Lemma zero_in_tables : 0 ∈ lower ++ upper.
Proof. apply list_elem_of_here. Qed.

Lemma kbd_ready_tidy (k k' : kbd) (r : Z) :
  tidy k -> kbd_ready k = Ret (r, k') -> tidy k'.
Proof.
  intros (Hr & Hs & Ha & Hp) Hk.
  destruct (kbd_ready_cases k k' r Hk)
    as [->|(w & q & _ & _ & [->|[->|[->|(v & Hv & ->)]]])];
    unfold tidy; simpl.
  - auto.
  - repeat split; auto using zero_in_tables. contradiction.
  - repeat split; auto using zero_in_tables. destruct (nonzero (release k)); auto.
  - repeat split; auto using zero_in_tables.
  - repeat split; auto. apply (table_entry_in_tables _ _ _ Hv).
Qed.

Lemma run_tidy (es : list event) (k k' : kbd) (last last' : option Z) :
  tidy k -> run es k last = Ret (k', last') -> tidy k'.
Proof.
  revert k last. induction es as [|e es IH]; intros k last Ht H.
  - simpl in H. now injection H as <- _.
  - destruct e as [w| |]; simpl in H.
    + apply (IH (set_rxf (rxf k ++ [w]) k) last); [exact Ht|exact H].
    + destruct (kbd_ready k) as [[r k1]| |] eqn:Hk; try discriminate H.
      apply (IH k1 (pulled k last)); [|exact H].
      apply (kbd_ready_tidy k k1 r Ht Hk).
    + apply (IH (set_ascii 0 k) last); [|exact H].
      destruct Ht as (Hr & Hs & _ & _). unfold tidy. simpl.
      repeat split; auto using zero_in_tables. contradiction.
Qed.

(** ** The characters the decoder hands over *)

Lemma typeable_range (c : Z) : typeable c = true -> 8 <= c <= 126.
Proof. unfold typeable, BS, TAB, LF, ESC. lia. Qed.

Lemma tables_typeable (v : Z) : v ∈ lower ++ upper -> v <> 0 -> typeable v = true.
Proof.
  intros Hv Hnz.
  assert (Hall : forallb (fun v => (v =? 0) || typeable v) (lower ++ upper) = true)
    by reflexivity.
  rewrite forallb_forall in Hall. apply list_elem_of_In, Hall in Hv.
  apply orb_true_iff in Hv. destruct Hv as [Hv|Hv]; [lia|exact Hv].
Qed.

Lemma typeable_has_key (c : Z) : typeable c = true -> is_Some (key_of c).
Proof.
  intros Hc. pose proof (typeable_range c Hc) as Hr.
  assert (Hall : forallb (fun v => implb (typeable v) (bool_decide (is_Some (key_of v))))
                   (seqZ 0 128) = true) by (vm_compute; reflexivity).
  rewrite forallb_forall in Hall.
  assert (Hin : In c (seqZ 0 128)) by (apply list_elem_of_In, elem_of_seqZ; lia).
  apply Hall in Hin. rewrite Hc in Hin. simpl in Hin.
  now apply bool_decide_eq_true in Hin.
Qed.

Lemma key_of_entry (c code sh : Z) :
  key_of c = Some (code, sh) ->
  0 <= code < 128 /\ (sh = 0 \/ sh = 1) /\ table_for sh !! Z.to_nat code = Some c.
Proof.
  unfold key_of. intros H.
  destruct (list_find (fun v => v = c) lower) as [[i v]|] eqn:Hl.
  - injection H as <- <-. apply list_find_Some in Hl. destruct Hl as (Hi & -> & _).
    pose proof (lookup_lt_Some _ _ _ Hi) as Hlt. rewrite lower_length in Hlt.
    rewrite Nat2Z.id. repeat split; auto; lia.
  - destruct (list_find (fun v => v = c) upper) as [[i v]|] eqn:Hu; [|discriminate H].
    injection H as <- <-. apply list_find_Some in Hu. destruct Hu as (Hi & -> & _).
    pose proof (lookup_lt_Some _ _ _ Hi) as Hlt. rewrite upper_length in Hlt.
    rewrite Nat2Z.id. repeat split; auto; lia.
Qed.

Lemma kbd_ready_suffix (k k' : kbd) (r : Z) :
  kbd_ready k = Ret (r, k') -> rxf k' `suffix_of` rxf k.
Proof.
  intros Hk.
  destruct (kbd_ready_cases k k' r Hk)
    as [->|(w & q & -> & _ & [->|[->|[->|(v & _ & ->)]]])]; simpl;
    solve [reflexivity | apply suffix_cons_r; reflexivity].
Qed.

(** What a returning [kbd_getc] hands over in the checked model. *)
Lemma kbd_getc_ret_typeable (fuel : nat) (k k' : kbd) (c : Z) :
  tidy k -> kbd_getc fuel k = Ret (c, k') ->
  typeable c = true /\ c ∈ lower ++ upper /\
  tidy k' /\ release k' = 0 /\ ascii k' = 0 /\ rxf k' `suffix_of` rxf k.
Proof.
  revert k. induction fuel as [|fuel IH]; intros k Ht H; [discriminate|].
  simpl in H. destruct (kbd_ready k) as [[r k1]| |] eqn:Hk; simpl in H;
    try discriminate H.
  pose proof (kbd_ready_tidy k k1 r Ht Hk) as Ht1.
  pose proof (kbd_ready_returns_ascii k k1 r Hk) as Hr.
  pose proof (kbd_ready_suffix k k1 r Hk) as Hsuf.
  destruct Ht1 as (Hr1 & Hs1 & Ha1 & Hp1).
  pose proof (in_tables_ascii7 _ Ha1) as Hb1.
  rewrite to_char_byte in H by lia.
  destruct (nonzero r) eqn:Hnz.
  - injection H as <- <-. apply nonzero_true in Hnz. subst r.
    split_and!.
    + now apply tables_typeable.
    + exact Ha1.
    + unfold tidy. simpl. repeat split; auto using zero_in_tables.
    + simpl. auto.
    + reflexivity.
    + exact Hsuf.
  - assert (Ht1 : tidy k1) by (unfold tidy; auto).
    destruct (IH k1 Ht1 H) as (G1 & G2 & G3 & G4 & G5 & G6).
    split_and!; try assumption. now transitivity (rxf k1).
Qed.

(** X6.  Every printable ASCII character, and each of backspace, tab,
    line feed and escape, can be typed: [key_of] finds a scan code below
    128 and a shift state for it, and a press of that key in that shift
    state, with nothing pending and [release] clear, makes the next
    [kbd_getc] return exactly that character. *)
Theorem every_typeable_char_has_a_key (c : Z) :
  typeable c = true ->
  exists code sh, key_of c = Some (code, sh) /\
    0 <= code < 128 /\ ordinary code /\ (sh = 0 \/ sh = 1) /\
    forall w q fuel, rx_byte3 w = code ->
      kbd_getc (S fuel) (Kbd (w :: q) 0 sh 0) = Ret (c, Kbd q 0 sh 0).
Proof.
  intros Hc. destruct (typeable_has_key c Hc) as [[code sh] Hkey].
  destruct (key_of_entry c code sh Hkey) as (Hcode & Hsh & Hv).
  pose proof (typeable_range c Hc) as Hr.
  assert (Ho : ordinary code)
    by (apply (mapped_is_ordinary sh code c); [lia|exact Hv|lia]).
  exists code, sh.
  split; [exact Hkey|]. split; [exact Hcode|]. split; [exact Ho|].
  split; [exact Hsh|].
  intros w q fuel Hw.
  apply (kbd_getc_press fuel (Kbd (w :: q) 0 sh 0) w q c).
  - reflexivity.
  - reflexivity.
  - reflexivity.
  - simpl shift. now rewrite Hw.
  - lia.
Qed.

Lemma every_typeable_char_has_a_key_witness :
  exists code sh, key_of (chr "?") = Some (code, sh) /\
    0 <= code < 128 /\ ordinary code /\ (sh = 0 \/ sh = 1) /\
    forall w q fuel, rx_byte3 w = code ->
      kbd_getc (S fuel) (Kbd (w :: q) 0 sh 0) = Ret (chr "?", Kbd q 0 sh 0).
Proof.
  apply (every_typeable_char_has_a_key (chr "?")). reflexivity.
Defined.

(** ** What the tables say about keys *)

Lemma table_injective (t : list Z) (i j : nat) (c : Z) :
  t = lower \/ t = upper ->
  t !! i = Some c -> t !! j = Some c -> c <> 0 -> i = j.
Proof.
  intros Ht Hi Hj Hnz.
  assert (Hall : forallb (fun p => forallb (fun p' =>
                   (p.2 =? 0) || negb (p.2 =? p'.2) || (p.1 =? p'.1)%nat)
                   (imap pair t)) (imap pair t) = true)
    by (destruct Ht; subst t; vm_compute; reflexivity).
  rewrite forallb_forall in Hall.
  assert (Hin : forall n, t !! n = Some c -> In (n, c) (imap pair t)).
  { intros n Hn. apply list_elem_of_In, elem_of_lookup_imap. eauto. }
  specialize (Hall _ (Hin i Hi)). rewrite forallb_forall in Hall.
  specialize (Hall _ (Hin j Hj)). simpl in Hall.
  apply orb_true_iff in Hall. destruct Hall as [Hall|Hall].
  - apply orb_true_iff in Hall. destruct Hall as [Hall|Hall]; [lia|].
    rewrite Z.eqb_refl in Hall. discriminate.
  - now apply Nat.eqb_eq in Hall.
Qed.

Lemma returned_char_is_entry (sh w : Z) (q : list Z) (c : Z) (k : kbd) :
  kbd_ready (Kbd (w :: q) 0 sh 0) = Ret (c, k) -> c <> 0 ->
  table_for sh !! Z.to_nat (rx_byte3 w) = Some c.
Proof.
  intros Hk Hnz.
  pose proof (kbd_ready_returns_ascii _ _ _ Hk) as Hr.
  destruct (kbd_ready_cases _ _ _ Hk)
    as [->|(w' & q' & Hq & _ & [->|[->|[->|(v & Hv & ->)]]])];
    simpl in Hr; try contradiction.
  cbn [rxf shift] in Hq, Hv. injection Hq as <- <-. now subst v.
Qed.

(** X7.  Within one shift state a character names its key, as long as
    the scan codes are below 128: two such scan codes, each pulled with
    nothing pending and [release] clear under the same shift flag, both
    make [kbd_ready] return, and when it returns the same non-zero
    character for both, the two scan codes are equal. *)
Theorem character_names_its_key (sh w1 w2 : Z) (q1 q2 : list Z) :
  rx_byte3 w1 < 128 -> rx_byte3 w2 < 128 ->
  exists c1 k1 c2 k2,
    kbd_ready (Kbd (w1 :: q1) 0 sh 0) = Ret (c1, k1) /\
    kbd_ready (Kbd (w2 :: q2) 0 sh 0) = Ret (c2, k2) /\
    (c1 = c2 -> c1 <> 0 -> rx_byte3 w1 = rx_byte3 w2).
Proof.
  intros Hb1 Hb2.
  destruct (kbd_ready_in_bounds (Kbd (w1 :: q1) 0 sh 0) w1 q1 eq_refl (or_introl Hb1))
    as (c1 & k1 & H1).
  destruct (kbd_ready_in_bounds (Kbd (w2 :: q2) 0 sh 0) w2 q2 eq_refl (or_introl Hb2))
    as (c2 & k2 & H2).
  exists c1, k1, c2, k2. split; [exact H1|]. split; [exact H2|].
  intros <- Hnz.
  pose proof (returned_char_is_entry sh w1 q1 c1 k1 H1 Hnz) as E1.
  pose proof (returned_char_is_entry sh w2 q2 c1 k2 H2 Hnz) as E2.
  pose proof (table_injective _ _ _ c1 (table_for_cases sh) E1 E2 Hnz) as Heq.
  pose proof (rx_byte3_range w1). pose proof (rx_byte3_range w2). lia.
Qed.

Lemma character_names_its_key_witness :
  exists c1 k1 c2 k2,
    kbd_ready (Kbd [rx_word 0x1C] 0 1 0) = Ret (c1, k1) /\
    kbd_ready (Kbd [0x1C00FFFF; rx_word 0x32] 0 1 0) = Ret (c2, k2) /\
    (c1 = c2 -> c1 <> 0 -> rx_byte3 (rx_word 0x1C) = rx_byte3 0x1C00FFFF).
Proof.
  apply (character_names_its_key 1 (rx_word 0x1C) 0x1C00FFFF [] [rx_word 0x32]);
    reflexivity.
Defined.

(** X8.  The two tables describe the same keys: an index has a character
    in [lower] exactly when it has one in [upper]; where [lower] has a
    small letter [upper] has its capital; and the only characters that
    shift leaves as they are, are tab, space, line feed, backspace and
    escape. *)
Theorem shift_pairs_keys (i : nat) (lo up : Z) :
  lower !! i = Some lo -> upper !! i = Some up ->
  (lo = 0 <-> up = 0) /\
  (chr "a" <= lo <= chr "z" -> up = lo - 32) /\
  (chr "A" <= up <= chr "Z" -> lo = up + 32) /\
  (lo <> 0 -> (lo = up <-> lo ∈ [TAB; chr " "; LF; BS; ESC])).
Proof.
  intros Hlo Hup.
  assert (Hall : forallb (fun p =>
      Bool.eqb (p.1 =? 0) (p.2 =? 0)
      && implb ((chr "a" <=? p.1) && (p.1 <=? chr "z")) (p.2 =? p.1 - 32)
      && implb ((chr "A" <=? p.2) && (p.2 <=? chr "Z")) (p.1 =? p.2 + 32)
      && ((p.1 =? 0) ||
          Bool.eqb (p.1 =? p.2) (bool_decide (p.1 ∈ [TAB; chr " "; LF; BS; ESC]))))
      (zip lower upper) = true) by (vm_compute; reflexivity).
  rewrite forallb_forall in Hall.
  assert (Hin : In (lo, up) (zip lower upper)).
  { apply list_elem_of_In, list_elem_of_lookup. exists i.
    apply lookup_zip_with_Some. eauto. }
  apply Hall in Hin. simpl in Hin.
  apply andb_true_iff in Hin. destruct Hin as [Hin H4].
  apply andb_true_iff in Hin. destruct Hin as [Hin H3].
  apply andb_true_iff in Hin. destruct Hin as [H1 H2].
  apply Bool.eqb_prop in H1.
  split_and!.
  - split; intros E.
    + apply Z.eqb_eq. rewrite <- H1. now apply Z.eqb_eq.
    + apply Z.eqb_eq. rewrite H1. now apply Z.eqb_eq.
  - intros Hr. destruct ((chr "a" <=? lo) && (lo <=? chr "z")) eqn:E; [|lia].
    simpl in H2. lia.
  - intros Hr. destruct ((chr "A" <=? up) && (up <=? chr "Z")) eqn:E; [|lia].
    simpl in H3. lia.
  - intros Hnz. apply orb_true_iff in H4. destruct H4 as [H4|H4]; [lia|].
    apply Bool.eqb_prop in H4. split; intros E.
    + apply Z.eqb_eq in E. rewrite H4 in E. exact (bool_decide_eq_true_1 _ E).
    + apply Z.eqb_eq. rewrite H4. now apply bool_decide_eq_true_2.
Qed.

Lemma shift_pairs_keys_witness :
  (chr "q" = 0 <-> chr "Q" = 0) /\
  (chr "a" <= chr "q" <= chr "z" -> chr "Q" = chr "q" - 32) /\
  (chr "A" <= chr "Q" <= chr "Z" -> chr "q" = chr "Q" + 32) /\
  (chr "q" <> 0 -> (chr "q" = chr "Q" <-> chr "q" ∈ [TAB; chr " "; LF; BS; ESC])).
Proof.
  apply (shift_pairs_keys 0x15%nat (chr "q") (chr "Q")); reflexivity.
Defined.

(** ** Only the scan code byte of a word matters *)

Lemma scan_switch_same_flags (code : Z) (q1 q2 : list Z) (r s a : Z) :
  match scan_switch code (Kbd q1 r s a), scan_switch code (Kbd q2 r s a) with
  | Ret k1, Ret k2 =>
      rxf k1 = q1 /\ rxf k2 = q2 /\
      release k1 = release k2 /\ shift k1 = shift k2 /\ ascii k1 = ascii k2
  | OutOfBounds i1, OutOfBounds i2 => i1 = i2
  | _, _ => False
  end.
Proof.
  unfold scan_switch, table_get, set_release, set_shift, set_ascii,
    mbind, mret, result_bind, result_ret.
  cbn [rxf release shift ascii].
  destruct (code =? 0xF0); [cbn [rxf release shift ascii]; auto|].
  destruct ((code =? 0x12) || (code =? 0x59));
    [destruct (nonzero r); cbn [rxf release shift ascii]; auto|].
  destruct (nonzero r); cbn [negb rxf release shift ascii]; [auto|].
  destruct (table_for s !! Z.to_nat code); cbn [rxf release shift ascii]; auto.
Qed.

Lemma kbd_ready_same_codes (k1 k2 : kbd) :
  same_codes k1 k2 ->
  match kbd_ready k1, kbd_ready k2 with
  | Ret (r1, k1'), Ret (r2, k2') => r1 = r2 /\ same_codes k1' k2'
  | OutOfBounds i1, OutOfBounds i2 => i1 = i2
  | _, _ => False
  end.
Proof.
  destruct k1 as [q1 r1 s1 a1], k2 as [q2 r2 s2 a2].
  unfold same_codes. cbn [rxf release shift ascii].
  intros (Hq & <- & <- & <-).
  unfold kbd_ready, set_rxf. cbn [rxf release shift ascii].
  destruct (nonzero a1) eqn:Ha; [cbn; auto|].
  destruct q1 as [|w1 q1], q2 as [|w2 q2]; try discriminate Hq; [cbn; auto|].
  rewrite !fmap_cons in Hq. injection Hq as Hw Hq. rewrite <- Hw.
  pose proof (scan_switch_same_flags (rx_byte3 w1) q1 q2 r1 s1 a1) as Hsw.
  destruct (scan_switch (rx_byte3 w1) (Kbd q1 r1 s1 a1)) as [k1'| |],
           (scan_switch (rx_byte3 w1) (Kbd q2 r1 s1 a1)) as [k2'| |];
    try contradiction; [|exact Hsw].
  destruct Hsw as (E1 & E2 & E3 & E4 & E5).
  unfold mbind, mret, result_bind, result_ret.
  rewrite E1, E2. auto.
Qed.

(** X9.  The decoder looks at nothing but byte 3 of each queued word:
    two states with the same flags whose queued words agree in that byte
    give the same values from any number of calls of [kbd_ready] and the
    same character from [kbd_getc], or go wrong or keep waiting alike. *)
Theorem low_bytes_are_ignored (k1 k2 : kbd) :
  same_codes k1 k2 ->
  (forall n, returned (polls n k1) = returned (polls n k2)) /\
  (forall fuel, returned (kbd_getc fuel k1) = returned (kbd_getc fuel k2)).
Proof.
  intros Hs. split.
  - intros n. revert k1 k2 Hs. induction n as [|n IH]; intros k1 k2 Hs;
      [reflexivity|].
    pose proof (kbd_ready_same_codes k1 k2 Hs) as Hk. unfold returned in *.
    simpl.
    destruct (kbd_ready k1) as [[r1 k1']| |], (kbd_ready k2) as [[r2 k2']| |];
      try contradiction; simpl; [|now rewrite Hk].
    destruct Hk as [<- Hs']. specialize (IH k1' k2' Hs').
    destruct (polls n k1') as [[rs1 k1'']| |], (polls n k2') as [[rs2 k2'']| |];
      simpl in *; unfold mret, result_ret in *; congruence.
  - intros fuel. revert k1 k2 Hs. induction fuel as [|fuel IH]; intros k1 k2 Hs;
      [reflexivity|].
    pose proof (kbd_ready_same_codes k1 k2 Hs) as Hk. unfold returned in *.
    simpl.
    destruct (kbd_ready k1) as [[r1 k1']| |], (kbd_ready k2) as [[r2 k2']| |];
      try contradiction; simpl; [|now rewrite Hk].
    destruct Hk as [<- Hs'].
    destruct (nonzero (to_char r1)); [reflexivity|]. now apply IH.
Qed.

Lemma low_bytes_are_ignored_witness :
  (forall n, returned (polls n (kbd_start [rx_word 0x1C; rx_word 0x83]))
             = returned (polls n (kbd_start [0x1CABCDEF; 0x83000001]))) /\
  (forall fuel, returned (kbd_getc fuel (kbd_start [rx_word 0x1C; rx_word 0x83]))
                = returned (kbd_getc fuel (kbd_start [0x1CABCDEF; 0x83000001]))).
Proof.
  apply (low_bytes_are_ignored (kbd_start [rx_word 0x1C; rx_word 0x83])
           (kbd_start [0x1CABCDEF; 0x83000001])).
  repeat split; reflexivity.
Defined.

(** ** Scan codes that keep the decoder inside its tables *)

Lemma kbd_ready_in_domain (k : kbd) :
  Forall (fun w => in_domain (rx_byte3 w) = true) (rxf k) ->
  exists r k', kbd_ready k = Ret (r, k') /\
    Forall (fun w => in_domain (rx_byte3 w) = true) (rxf k').
Proof.
  intros Hall.
  destruct (kbd_ready k) as [[r k']|i|] eqn:Hk.
  - exists r, k'. split; [reflexivity|].
    destruct (kbd_ready_suffix k k' r Hk) as [pre Hpre].
    rewrite Hpre in Hall. now apply Forall_app in Hall.
  - apply kbd_ready_fault_head in Hk.
    destruct Hk as (_ & _ & w & q & Hq & <- & Hge & Hne).
    rewrite Hq in Hall. apply Forall_cons in Hall. destruct Hall as [Hw _].
    unfold in_domain in Hw. lia.
  - now apply kbd_ready_not_spin in Hk.
Qed.

(** X10.  While every queued word carries a scan code below 128 or the
    release prefix 0xF0, nothing goes wrong: every call of [kbd_ready]
    returns, any number of them in a row, and [kbd_getc] never reads past a
    table. *)
Theorem in_domain_codes_never_fault (k : kbd) :
  Forall (fun w => in_domain (rx_byte3 w) = true) (rxf k) ->
  (forall n, exists rs k', polls n k = Ret (rs, k') /\ length rs = n) /\
  (forall fuel i, kbd_getc fuel k <> OutOfBounds i).
Proof.
  intros Hall. split.
  - intros n. revert k Hall. induction n as [|n IH]; intros k Hall.
    + exists [], k. split; reflexivity.
    + destruct (kbd_ready_in_domain k Hall) as (r & k1 & Hk & Hall1).
      destruct (IH k1 Hall1) as (rs & k2 & Hp & Hlen).
      exists (r :: rs), k2. rewrite (polls_step n k k1 r Hk), Hp.
      split; [reflexivity|]. simpl. now rewrite Hlen.
  - intros fuel. revert k Hall. induction fuel as [|fuel IH]; intros k Hall i;
      [discriminate|].
    destruct (kbd_ready_in_domain k Hall) as (r & k1 & Hk & Hall1).
    simpl. rewrite Hk. cbn.
    destruct (nonzero (to_char r)); [discriminate|]. now apply IH.
Qed.

Lemma in_domain_codes_never_fault_witness :
  let k := Kbd [rx_word 0x12; rx_word 0x05; rx_word 0xF0; rx_word 0x7F] 1 0 0 in
  (forall n, exists rs k', polls n k = Ret (rs, k') /\ length rs = n) /\
  (forall fuel i, kbd_getc fuel k <> OutOfBounds i).
Proof.
  apply (in_domain_codes_never_fault
           (Kbd [rx_word 0x12; rx_word 0x05; rx_word 0xF0; rx_word 0x7F] 1 0 0)).
  repeat constructor.
Defined.

(** ** Shift held and let go *)

(** X11.  Either shift key latches and either one unlatches.  From the
    start state, with the scan codes [s1], [c], 0xF0, [s2], [c] queued,
    where [s1] and [s2] are shift codes and [c] is a key with a character
    in both tables: the first [kbd_getc] returns the [upper] entry of [c]
    and leaves [shift] set, the second returns its [lower] entry and leaves
    [shift] clear. *)
Theorem shift_held_then_let_go
    (ws q : list Z) (s1 s2 c lo up : Z) :
  rx_byte3 <$> ws = [s1; c; 0xF0; s2; c] ->
  s1 = 0x12 \/ s1 = 0x59 -> s2 = 0x12 \/ s2 = 0x59 ->
  lower !! Z.to_nat c = Some lo -> lo <> 0 ->
  upper !! Z.to_nat c = Some up -> up <> 0 ->
  exists k1,
    (forall f1, kbd_getc (2 + f1) (kbd_start (ws ++ q)) = Ret (up, k1)) /\
    shift k1 = 1 /\
    (forall f2, kbd_getc (3 + f2) k1 = Ret (lo, Kbd q 0 0 0)).
Proof.
  intros Hws Hs1 Hs2 Hlo Hlnz Hup Hunz.
  destruct ws as [|w1 [|w2 [|w3 [|w4 [|w5 [|? ?]]]]]]; try discriminate Hws.
  rewrite !fmap_cons in Hws. injection Hws as Hw1 Hw2 Hw3 Hw4 Hw5.
  exists (Kbd (w3 :: w4 :: w5 :: q) 0 1 0). split; [|split; [reflexivity|]].
  - intros f1. change (2 + f1)%nat with (S (S f1)).
    rewrite (kbd_getc_again _ _ (Kbd (w2 :: w3 :: w4 :: w5 :: q) 0 1 0)).
    + apply (kbd_getc_press f1 (Kbd (w2 :: w3 :: w4 :: w5 :: q) 0 1 0) w2
               (w3 :: w4 :: w5 :: q) up); try reflexivity; [|exact Hunz].
      rewrite Hw2. exact Hup.
    + apply (kbd_ready_shift (kbd_start ([w1; w2; w3; w4; w5] ++ q)) w1
               (w2 :: w3 :: w4 :: w5 :: q)); try reflexivity.
      now rewrite Hw1.
  - intros f2. change (3 + f2)%nat with (S (S (S f2))).
    rewrite (kbd_getc_again _ _ (Kbd (w4 :: w5 :: q) 1 1 0))
      by now apply (kbd_ready_prefix (Kbd (w3 :: w4 :: w5 :: q) 0 1 0) w3
                      (w4 :: w5 :: q)).
    rewrite (kbd_getc_again _ _ (Kbd (w5 :: q) 0 0 0)).
    + apply (kbd_getc_press f2 (Kbd (w5 :: q) 0 0 0) w5 q lo);
        try reflexivity; [|exact Hlnz].
      rewrite Hw5. exact Hlo.
    + apply (kbd_ready_shift (Kbd (w4 :: w5 :: q) 1 1 0) w4 (w5 :: q));
        try reflexivity.
      now rewrite Hw4.
Qed.

Lemma shift_held_then_let_go_witness :
  exists k1,
    (forall f1, kbd_getc (2 + f1)
       (kbd_start ((rx_word <$> [0x59; 0x1C; 0xF0; 0x12; 0x1C]) ++ [rx_word 0x32]))
       = Ret (chr "A", k1)) /\
    shift k1 = 1 /\
    (forall f2, kbd_getc (3 + f2) k1 = Ret (chr "a", Kbd [rx_word 0x32] 0 0 0)).
Proof.
  apply (shift_held_then_let_go (rx_word <$> [0x59; 0x1C; 0xF0; 0x12; 0x1C])
           [rx_word 0x32] 0x59 0x12 0x1C (chr "a") (chr "A"));
    solve [reflexivity | discriminate | auto].
Defined.

(** ** Release prefixes in a row *)

(** X12.  Any number of release prefixes in a row releases exactly one
    key.  With one or more 0xF0 codes queued, followed by the scan code of
    a mapped key twice, and nothing pending: the calls of [kbd_ready] that
    pull the prefixes and the first key code all return 0, whatever
    [release] held before, and [kbd_getc] returns the character of the
    second key code. *)
Theorem prefix_run_releases_one_key
    (n : nat) (ws q : list Z) (k : kbd) (c v : Z) :
  rx_byte3 <$> ws = replicate (S n) 0xF0 ++ [c; c] ->
  rxf k = ws ++ q -> ascii k = 0 ->
  table_for (shift k) !! Z.to_nat c = Some v -> v <> 0 ->
  exists w,
    rx_byte3 w = c /\
    polls (S (S n)) k = Ret (replicate (S (S n)) 0, Kbd (w :: q) 0 (shift k) 0) /\
    forall f, kbd_getc (S (S (S n)) + f) k = Ret (v, Kbd q 0 (shift k) 0).
Proof.
  revert ws k. induction n as [|n IH]; intros ws k Hws Hq Ha Hv Hnz.
  - destruct ws as [|w1 [|w2 [|w3 [|? ?]]]]; try discriminate Hws.
    rewrite !fmap_cons in Hws. injection Hws as Hw1 Hw2 Hw3.
    assert (Ho : ordinary c).
    { apply (mapped_is_ordinary (shift k) c v); [|exact Hv|exact Hnz].
      rewrite <- Hw2. apply rx_byte3_range. }
    assert (H1 : kbd_ready k = Ret (0, Kbd (w2 :: w3 :: q) 1 (shift k) 0))
      by now apply (kbd_ready_prefix k w1 (w2 :: w3 :: q)).
    assert (H2 : kbd_ready (Kbd (w2 :: w3 :: q) 1 (shift k) 0)
                 = Ret (0, Kbd (w3 :: q) 0 (shift k) 0)).
    { apply (kbd_ready_released (Kbd (w2 :: w3 :: q) 1 (shift k) 0) w2 (w3 :: q));
        try reflexivity; [now rewrite Hw2|discriminate]. }
    exists w3. split; [exact Hw3|]. split.
    + rewrite (polls_step _ _ _ _ H1), (polls_step _ _ _ _ H2). reflexivity.
    + intros f. change (3 + f)%nat with (S (S (S f))).
      rewrite (kbd_getc_again _ _ _ H1), (kbd_getc_again _ _ _ H2).
      apply (kbd_getc_press f (Kbd (w3 :: q) 0 (shift k) 0) w3 q v);
        try reflexivity; [|exact Hnz].
      cbn [shift]. now rewrite Hw3.
  - destruct ws as [|w0 ws]; [discriminate Hws|].
    rewrite fmap_cons in Hws. cbn [replicate app] in Hws.
    injection Hws as Hw0 Hws.
    assert (H1 : kbd_ready k = Ret (0, Kbd (ws ++ q) 1 (shift k) 0))
      by now apply (kbd_ready_prefix k w0 (ws ++ q)).
    destruct (IH ws (Kbd (ws ++ q) 1 (shift k) 0) Hws eq_refl eq_refl Hv Hnz)
      as (w & Hw & Hp & Hg).
    exists w. split; [exact Hw|]. split.
    + rewrite (polls_step _ _ _ _ H1), Hp. reflexivity.
    + intros f. change (S (S (S (S n))) + f)%nat with (S (S (S (S n)) + f)).
      rewrite (kbd_getc_again _ _ _ H1). apply Hg.
Qed.

Lemma prefix_run_releases_one_key_witness :
  exists w,
    rx_byte3 w = 0x32 /\
    polls 4 (Kbd (rx_word <$> [0xF0; 0xF0; 0xF0; 0x32; 0x32]) 0 1 0)
      = Ret (replicate 4 0, Kbd [w] 0 1 0) /\
    forall f, kbd_getc (5 + f) (Kbd (rx_word <$> [0xF0; 0xF0; 0xF0; 0x32; 0x32]) 0 1 0)
              = Ret (chr "B", Kbd [] 0 1 0).
Proof.
  apply (prefix_run_releases_one_key 2 (rx_word <$> [0xF0; 0xF0; 0xF0; 0x32; 0x32]) []
           (Kbd (rx_word <$> [0xF0; 0xF0; 0xF0; 0x32; 0x32]) 0 1 0) 0x32 (chr "B"));
    solve [reflexivity | discriminate].
Defined.

(** ** Waiting *)

(** X13.  [kbd_getc] waits only on an empty FIFO.  With the pending
    character a byte: if the call is still looping after one turn per
    queued word and one more, then that many calls of [kbd_ready] all
    returned 0 and pulled every word, leaving the FIFO empty and nothing
    pending; and on an empty FIFO with nothing pending it loops for good. *)
Theorem kbd_getc_waits_only_when_drained (k : kbd) :
  0 <= ascii k < 256 ->
  kbd_getc (S (length (rxf k))) k = Spin ->
  exists k',
    polls (length (rxf k)) k = Ret (replicate (length (rxf k)) 0, k') /\
    rxf k' = [] /\ ascii k' = 0 /\
    forall fuel, kbd_getc fuel k' = Spin.
Proof.
  remember (length (rxf k)) as m eqn:Hm. revert k Hm.
  induction m as [|m IH]; intros k Hm Hb Hspin.
  - destruct (rxf k) as [|w q] eqn:Hq; [|discriminate Hm].
    destruct (Z.eq_dec (ascii k) 0) as [Ha|Ha].
    + exists k. repeat split; try assumption.
      intros fuel. now apply kbd_getc_idle.
    + rewrite kbd_getc_pending in Hspin by lia. discriminate.
  - destruct (Z.eq_dec (ascii k) 0) as [Ha|Ha];
      [|rewrite kbd_getc_pending in Hspin by lia; discriminate].
    destruct (rxf k) as [|w q] eqn:Hq; [discriminate Hm|].
    change (kbd_getc (S (S m)) k) with
      ('(r, k') ← kbd_ready k;
       if nonzero (to_char r) then mret (to_char r, set_ascii 0 k')
       else kbd_getc (S m) k') in Hspin.
    destruct (kbd_ready k) as [[r k1]| |] eqn:Hk; simpl in Hspin;
      try discriminate Hspin; [|now apply kbd_ready_not_spin in Hk].
    pose proof (kbd_ready_keeps_byte k k1 r Hb Hk) as Hb1.
    pose proof (kbd_ready_returns_ascii k k1 r Hk) as Hr.
    pose proof (kbd_ready_rxf k k1 w q r Ha Hq Hk) as Hq1.
    rewrite to_char_byte in Hspin by lia.
    destruct (nonzero r) eqn:Hnz; [discriminate Hspin|].
    apply nonzero_false in Hnz. subst r.
    assert (Hm1 : m = length (rxf k1)) by (rewrite Hq1; simpl in Hm; lia).
    destruct (IH k1 Hm1 Hb1 Hspin) as (k' & Hp & Hq' & Ha' & Hidle).
    exists k'. rewrite (polls_step m k k1 0 Hk), Hp. repeat split; assumption.
Qed.

Lemma kbd_getc_waits_only_when_drained_witness :
  let k := Kbd [rx_word 0x12; rx_word 0xF0; rx_word 0x1C; rx_word 0x05] 0 0 0 in
  exists k',
    polls (length (rxf k)) k = Ret (replicate (length (rxf k)) 0, k') /\
    rxf k' = [] /\ ascii k' = 0 /\
    forall fuel, kbd_getc fuel k' = Spin.
Proof.
  apply (kbd_getc_waits_only_when_drained
           (Kbd [rx_word 0x12; rx_word 0xF0; rx_word 0x1C; rx_word 0x05] 0 0 0)).
  - simpl. lia.
  - reflexivity.
Defined.

(** ** States and characters while the scan codes stay inside the tables *)

Lemma run_in_domain_tidy (es : list event) (k : kbd) (last : option Z) :
  tidy k ->
  Forall (fun w => in_domain (rx_byte3 w) = true) (rxf k) ->
  Forall (fun e => in_domain_event e = true) es ->
  exists k' last', run es k last = Ret (k', last') /\ tidy k' /\
    Forall (fun w => in_domain (rx_byte3 w) = true) (rxf k').
Proof.
  revert k last. induction es as [|e es IH]; intros k last Ht Hq Hes.
  - exists k, last. auto.
  - apply Forall_cons in Hes. destruct Hes as [He Hes].
    destruct e as [w| |]; cbn [run].
    + apply IH; [exact Ht| |exact Hes].
      cbn [set_rxf rxf]. apply Forall_app. split; [exact Hq|].
      apply Forall_cons. split; [exact He|apply Forall_nil_2].
    + destruct (kbd_ready_in_domain k Hq) as (r & k1 & Hk & Hq1).
      rewrite Hk. apply IH; [|exact Hq1|exact Hes].
      apply (kbd_ready_tidy k k1 r Ht Hk).
    + apply IH; [|exact Hq|exact Hes].
      destruct Ht as (Hr & Hs & _ & _). unfold tidy. cbn [set_ascii release shift ascii].
      repeat split; auto using zero_in_tables. contradiction.
Qed.

(** X4.  While every word that is queued or arrives carries a scan code
    below 128 or the release prefix 0xF0, every history from the start
    state -- words arriving, calls of [kbd_ready], characters taken --
    runs through without a read past a table, and in the state it reaches
    [release] and [shift] are 0 or 1, the pending character is 0 or a 7-bit
    table entry, and a character is pending only while [release] is
    clear. *)
Theorem in_domain_histories_stay_tidy (es : list event) (q : list Z) :
  Forall (fun w => in_domain (rx_byte3 w) = true) q ->
  Forall (fun e => in_domain_event e = true) es ->
  exists k last, run es (kbd_start q) None = Ret (k, last) /\
    (release k = 0 \/ release k = 1) /\ (shift k = 0 \/ shift k = 1) /\
    0 <= ascii k < 128 /\ ascii k ∈ lower ++ upper /\
    (ascii k <> 0 -> release k = 0).
Proof.
  intros Hq Hes.
  destruct (run_in_domain_tidy es (kbd_start q) None) as (k & last & Hrun & Ht & _);
    [|exact Hq|exact Hes|].
  { unfold tidy. cbn [kbd_start release shift ascii].
    repeat split; auto using zero_in_tables. }
  exists k, last. split; [exact Hrun|].
  destruct Ht as (Hr & Hs & Ha & Hp).
  pose proof (in_tables_ascii7 _ Ha).
  repeat split; try assumption; lia.
Qed.

Lemma in_domain_histories_stay_tidy_witness :
  exists k last,
    run [Poll; Arrive (rx_word 0x1C); Poll; Poll; Take; Arrive (rx_word 0xF0); Poll]
        (kbd_start [rx_word 0x12; rx_word 0x32]) None = Ret (k, last) /\
    (release k = 0 \/ release k = 1) /\ (shift k = 0 \/ shift k = 1) /\
    0 <= ascii k < 128 /\ ascii k ∈ lower ++ upper /\
    (ascii k <> 0 -> release k = 0).
Proof.
  apply (in_domain_histories_stay_tidy
           [Poll; Arrive (rx_word 0x1C); Poll; Poll; Take; Arrive (rx_word 0xF0); Poll]
           [rx_word 0x12; rx_word 0x32]);
    repeat constructor.
Defined.

Lemma kbd_getc_in_domain_no_fault (fuel : nat) (k : kbd) (i : Z) :
  Forall (fun w => in_domain (rx_byte3 w) = true) (rxf k) ->
  kbd_getc fuel k <> OutOfBounds i.
Proof.
  revert k. induction fuel as [|fuel IH]; intros k Hq; [discriminate|].
  destruct (kbd_ready_in_domain k Hq) as (r & k1 & Hk & Hq1).
  cbn [kbd_getc]. rewrite Hk. unfold mbind, result_bind.
  destruct (nonzero (to_char r)); [discriminate|]. now apply IH.
Qed.

(** X5.  From a state of that shape whose queued words all carry a scan
    code below 128 or 0xF0, a call of [kbd_getc] either is still waiting
    or returns a printable ASCII character or one of backspace, tab, line
    feed and escape -- a non-zero entry of a table -- and then leaves no
    character pending, [release] clear, the flags in shape, and of the FIFO
    a tail of what was queued. *)
Theorem kbd_getc_hands_over_typeable (fuel : nat) (k : kbd) :
  tidy k ->
  Forall (fun w => in_domain (rx_byte3 w) = true) (rxf k) ->
  kbd_getc fuel k = Spin \/
  exists c k', kbd_getc fuel k = Ret (c, k') /\
    typeable c = true /\ c ∈ lower ++ upper /\
    tidy k' /\ release k' = 0 /\ ascii k' = 0 /\ rxf k' `suffix_of` rxf k.
Proof.
  intros Ht Hq.
  destruct (kbd_getc fuel k) as [[c k']|i|] eqn:Hg.
  - right. exists c, k'. split; [reflexivity|].
    apply (kbd_getc_ret_typeable fuel k k' c Ht Hg).
  - now apply kbd_getc_in_domain_no_fault in Hg.
  - now left.
Qed.

Lemma kbd_getc_hands_over_typeable_witness :
  let k := Kbd [rx_word 0xF0; rx_word 0x59; rx_word 0x1C; rx_word 0x32] 0 1 0 in
  kbd_getc 3 k = Spin \/
  exists c k', kbd_getc 3 k = Ret (c, k') /\
    typeable c = true /\ c ∈ lower ++ upper /\
    tidy k' /\ release k' = 0 /\ ascii k' = 0 /\ rxf k' `suffix_of` rxf k.
Proof.
  apply (kbd_getc_hands_over_typeable 3
           (Kbd [rx_word 0xF0; rx_word 0x59; rx_word 0x1C; rx_word 0x32] 0 1 0)).
  - unfold tidy. simpl. repeat split; auto using zero_in_tables.
  - repeat constructor.
Defined.

(** ** Flags on the routines as the processor runs them *)

Lemma machine_table_get_byte (behind : list Z -> Z -> Z) (sh code : Z) :
  0 <= Machine.table_get behind (table_for sh) code < 256.
Proof.
  unfold Machine.table_get.
  destruct (table_for sh !! Z.to_nat code) as [v|] eqn:Hv.
  - pose proof (tables_ascii7 _ _ _ (table_for_cases sh) Hv). lia.
  - apply Z.mod_pos_bound. lia.
Qed.

Lemma machine_kbd_ready_shape (behind : list Z -> Z -> Z) (k : kbd) :
  (release k = 0 \/ release k = 1) -> (shift k = 0 \/ shift k = 1) ->
  0 <= ascii k < 256 -> (ascii k <> 0 -> release k = 0) ->
  let k' := (Machine.kbd_ready behind k).2 in
  (release k' = 0 \/ release k' = 1) /\ (shift k' = 0 \/ shift k' = 1) /\
  0 <= ascii k' < 256 /\ (ascii k' <> 0 -> release k' = 0).
Proof.
  intros Hr Hs Hb Hp. unfold Machine.kbd_ready.
  destruct (nonzero (ascii k)) eqn:Ha; [cbn [snd]; auto|].
  destruct (rxf k) as [|w q]; [cbn [snd]; auto|].
  apply nonzero_false in Ha.
  unfold Machine.scan_switch, set_rxf, set_release, set_shift, set_ascii.
  cbn [rxf release shift ascii snd].
  destruct (rx_byte3 w =? 0xF0); [cbn [release shift ascii]; repeat split; auto; lia|].
  destruct ((rx_byte3 w =? 0x12) || (rx_byte3 w =? 0x59)).
  - destruct (nonzero (release k)) eqn:Hn; cbn [release shift ascii];
      repeat split; auto; lia.
  - destruct (nonzero (release k)); cbn [negb release shift ascii];
      repeat split; auto; try lia;
      apply machine_table_get_byte.
Qed.

(** X14.  On the routines as the processor runs them, whatever scan
    codes arrive and whatever bytes lie behind the tables: in every state
    reached from the start state by words arriving, calls of [kbd_ready]
    and characters taken, [release] and [shift] are 0 or 1, the pending
    character is a byte, and a character is pending only while [release]
    is clear. *)
Theorem machine_flags_stay_in_shape
    (behind : list Z -> Z -> Z)
    (es : list event) (q : list Z) (k : kbd) (last : option Z) :
  Machine.run behind es (kbd_start q) None = (k, last) ->
  (release k = 0 \/ release k = 1) /\ (shift k = 0 \/ shift k = 1) /\
  0 <= ascii k < 256 /\ (ascii k <> 0 -> release k = 0).
Proof.
  assert (Hgen : forall es k0 last0,
    (release k0 = 0 \/ release k0 = 1) -> (shift k0 = 0 \/ shift k0 = 1) ->
    0 <= ascii k0 < 256 -> (ascii k0 <> 0 -> release k0 = 0) ->
    Machine.run behind es k0 last0 = (k, last) ->
    (release k = 0 \/ release k = 1) /\ (shift k = 0 \/ shift k = 1) /\
    0 <= ascii k < 256 /\ (ascii k <> 0 -> release k = 0)).
  { clear es. intros es. induction es as [|e es IH]; intros k0 last0 Hr Hs Hb Hp H.
    - cbn [Machine.run] in H. injection H as <- _. auto.
    - destruct e as [w| |]; cbn [Machine.run] in H.
      + apply (IH (set_rxf (rxf k0 ++ [w]) k0) last0 Hr Hs Hb Hp H).
      + destruct (machine_kbd_ready_shape behind k0 Hr Hs Hb Hp) as (G1 & G2 & G3 & G4).
        apply (IH _ _ G1 G2 G3 G4 H).
      + apply (IH (set_ascii 0 k0) last0); try assumption;
          cbn [set_ascii ascii]; solve [lia | contradiction]. }
  intros H. apply (Hgen es (kbd_start q) None); try exact H;
    cbn [kbd_start release shift ascii]; solve [auto | lia | contradiction].
Qed.

Lemma machine_flags_stay_in_shape_witness :
  let k := Kbd [rx_word 0x1C] 0 1 200 in
  (release k = 0 \/ release k = 1) /\ (shift k = 0 \/ shift k = 1) /\
  0 <= ascii k < 256 /\ (ascii k <> 0 -> release k = 0).
Proof.
  apply (machine_flags_stay_in_shape (fun _ _ => 200)
           [Poll; Poll; Arrive (rx_word 0x1C); Poll]
           [rx_word 0x59; rx_word 0xE0]
           (Kbd [rx_word 0x1C] 0 1 200) (Some 0xE0)).
  reflexivity.
Defined.
